(** * A shallow embedding of the RAG document assistant

    The development follows the Python sources file by file:
    [document_processor.py], [vector_store.py], [rag_service.py],
    [inngest_service.py] and [api/routes.py].  Python dictionaries are
    finite maps, the services the program talks to (pypdf, the text
    splitter, OpenAI, Qdrant, Inngest, the file system) are collaborators
    whose answers are left open, and every effect of the program is a
    step of a state-and-exception monad over an explicit [World]. *)

From Stdlib Require Import QArith.
From stdpp Require Import gmap strings list fin_maps pretty sorting.

Local Open Scope string_scope.

(** ** Python values *)

(** Python floats are only stored and handed on by this program; no
    arithmetic is done on them except one subtraction of clock readings. *)
Definition float : Type := Q.

Inductive PyVal : Type :=
| VNone
| VStr (s : string)
| VInt (z : Z)
| VFloat (q : float).

#[global] Instance Q_eq_dec : EqDecision Q.
Proof. solve_decision. Defined.

#[global] Instance PyVal_eq_dec : EqDecision PyVal.
Proof. solve_decision. Defined.

(** A [Dict] with string keys. *)
Abbreviation dict := (gmap string PyVal).

(** Exceptions: FastAPI's [HTTPException], and every other subclass of
    [Exception] with its class name and its [str()]. *)
Inductive PyExn : Type :=
| HTTPException (status_code : Z) (detail : string)
| OtherException (cls : string) (msg : string).

(** [str(e)] *)
Definition exn_str (e : PyExn) : string :=
  match e with
  | HTTPException c d => pretty c +:+ ": " +:+ d
  | OtherException _ m => m
  end.

Definition is_HTTPException (e : PyExn) : bool :=
  match e with HTTPException _ _ => true | _ => false end.

(** ** Data records *)

(** The chunk dictionaries [{"content": ..., "metadata": ...}] built by
    [chunk_text]. *)
Record Chunk : Type := mkChunk {
  content : string;
  metadata : dict
}.

(** [qdrant_client.models.PointStruct] *)
Record PointStruct : Type := mkPoint {
  point_id : string;
  vector : list float;
  payload : dict
}.

(** A hit of [client.search]. *)
Record ScoredPoint : Type := mkScored {
  sp_id : string;
  sp_payload : dict;
  sp_score : float
}.

(** The result dictionaries [{"content", "metadata", "score"}] built by
    [VectorStore.search]. *)
Record Document : Type := mkDocument {
  doc_content : PyVal;
  doc_metadata : dict;
  doc_score : float
}.

(** ** The world the program runs in *)

Inductive Event : Type :=
| EvOpen (path mode : string)
| EvEmbed (model text : string)
| EvGetCollections
| EvCreateCollection (name : string)
| EvUpsert (name : string) (batch : list PointStruct)
| EvSearch (name : string) (query_vector : list float) (limit : Z)
| EvDelete (name : string) (must : list (string * PyVal))
| EvChat (model prompt : string)
| EvSend (document_id file_path filename : string)
| EvUuid (id : string)
| EvMakedirs (path : string)
| EvWrite (path : string)
| EvRemove (path : string).

Record World : Type := mkWorld {
  (** the files on disk, by path *)
  files : gmap string string;
  (** the Qdrant server: collection name to stored points, oldest first *)
  collections : gmap string (list PointStruct);
  (** how many identifiers [uuid.uuid4()] has handed out *)
  uuid_count : nat;
  (** every call that left the process, oldest first *)
  trace : list Event
}.

Definition log (ev : Event) (w : World) : World :=
  mkWorld (files w) (collections w) (uuid_count w) (trace w ++ [ev]).

Definition set_files (f : gmap string string) (w : World) : World :=
  mkWorld f (collections w) (uuid_count w) (trace w).

Definition set_collections (c : gmap string (list PointStruct)) (w : World) : World :=
  mkWorld (files w) c (uuid_count w) (trace w).

Definition set_uuid_count (n : nat) (w : World) : World :=
  mkWorld (files w) (collections w) n (trace w).

(** ** The monad: state plus Python exceptions *)

Definition M (A : Type) : Type := World → (PyExn + A) * World.

#[global] Instance M_ret : MRet M := λ A a w, (inr a, w).

#[global] Instance M_bind : MBind M := λ A B k m w,
  match m w with
  | (inl e, w') => (inl e, w')
  | (inr a, w') => k a w'
  end.

Definition raise {A} (e : PyExn) : M A := λ w, (inl e, w).

(** [try: body  except Exception as e: handler e] *)
Definition try_except {A} (body : M A) (handler : PyExn → M A) : M A := λ w,
  match body w with
  | (inl e, w') => handler e w'
  | (inr a, w') => (inr a, w')
  end.

(** One call to a collaborator: the call is logged, the collaborator's
    answer (it sees the whole world, the history included) is returned,
    and on success the world is updated by [upd]. *)
Definition extern {A} (ev : Event) (answer : World → PyExn + A)
    (upd : A → World → World) : M A := λ w,
  match answer w with
  | inl e => (inl e, log ev w)
  | inr a => (inr a, upd a (log ev w))
  end.

Definition keep {A} : A → World → World := λ _ w, w.

(** ** Python helpers *)

(** [s.endswith(suffix)] *)
Definition endswith (s suffix : string) : bool :=
  let n := String.length s in
  let m := String.length suffix in
  if decide (m ≤ n)%nat then bool_decide (String.substring (n - m) m s = suffix) else false.

(** [enumerate(l)] *)
Definition enumerate {A} (l : list A) : list (nat * A) :=
  zip (seq 0 (length l)) l.

(** [l[i:i + n]] for [i] in [range(0, len(l), n)], with [n > 0]. *)
Fixpoint slices_aux {A} (fuel n : nat) (l : list A) : list (list A) :=
  match fuel with
  | O => []
  | S fuel' =>
      match l with
      | [] => []
      | _ => take n l :: slices_aux fuel' n (drop n l)
      end
  end.

Definition slices {A} (n : nat) (l : list A) : list (list A) :=
  slices_aux (length l) n l.

(** [d.get(k, default)] *)
Definition dict_get (d : dict) (k : string) (dflt : PyVal) : PyVal :=
  default dflt (d !! k).

(** The line feed of the f-strings. *)
Definition nl : string := String (Ascii.ascii_of_nat 10) "".

(** ** Settings ([config.py]) *)

Record Settings : Type := mkSettings {
  qdrant_collection_name : string;
  inngest_event_key : string;
  chunk_size : Z;
  chunk_overlap : Z;
  embedding_model : string;
  chat_model : string
}.

(** The defaults of [class Settings]. *)
Definition default_settings : Settings :=
  mkSettings "documents" "" 1000 200 "text-embedding-3-small" "gpt-4-turbo-preview".

(** ** The Qdrant collection *)

(** Modelled from the spec: the Qdrant server is not part of the sources.
    Following section 4.4, a collection holds (identifier, vector, payload)
    triples in insertion order; a write of a point replaces the point with
    the same identifier or else appends it, and a batch is written point by
    point. *)
Fixpoint upsert_point (p : PointStruct) (pts : list PointStruct) : list PointStruct :=
  match pts with
  | [] => [p]
  | q :: rest =>
      if decide (point_id q = point_id p) then p :: rest
      else q :: upsert_point p rest
  end.

Definition upsert_points (batch pts : list PointStruct) : list PointStruct :=
  foldl (λ acc p, upsert_point p acc) pts batch.

(** A filter [{"must": [{"key": k, "match": {"value": v}}, ...]}]. *)
Definition Filter : Type := list (string * PyVal).

(** What a caller hands to [client.delete] as [points_selector]: a selector
    object of [qdrant_client.models] that carries a filter, or the same
    filter spelled as a plain Python dictionary. *)
Inductive PointsSelector : Type :=
| FilterSelector (must : Filter)
| DictSelector (must : Filter).

(** Modelled from the spec: a point matches a filter when its payload carries
    every listed key with the listed value. *)
Definition matches_filter (must : Filter) (p : PointStruct) : bool :=
  forallb (λ c, bool_decide (payload p !! c.1 = Some c.2)) must.

(** Modelled from the spec: deletion by filter removes every matching point
    and nothing else (section 4.4, [delete_by_document]). *)
Definition delete_points (must : Filter) (pts : list PointStruct) : list PointStruct :=
  filter (λ p, matches_filter must p = false) pts.

(** Insertion sort by descending score; equal scores keep their order. *)
Fixpoint insert_by_score (x : ScoredPoint) (l : list ScoredPoint) : list ScoredPoint :=
  match l with
  | [] => [x]
  | y :: rest =>
      if Qle_bool (sp_score y) (sp_score x) then x :: y :: rest
      else y :: insert_by_score x rest
  end.

Definition sort_by_score (l : list ScoredPoint) : list ScoredPoint :=
  foldr insert_by_score [] l.

(** Modelled from the spec: search scores every stored point against the
    query vector, orders by descending score (ties in insertion order) and
    returns at most [limit] hits (section 4.4, [search]). *)
Definition search_points (similarity : list float → list float → float)
    (query_vector : list float) (limit : Z) (pts : list PointStruct) : list ScoredPoint :=
  take (Z.to_nat limit)
    (sort_by_score
       ((λ p, mkScored (point_id p) (payload p) (similarity query_vector (vector p))) <$> pts)).

(** ** Service objects *)

Record VectorStore : Type := mkVectorStore {
  collection_name : string;
  vs_embedding_model : string;
  embedding_dimension : Z
}.

Record RAGService : Type := mkRAGService {
  model : string
}.

(** The answer dictionary of [RAGService.generate_answer]. *)
Record Answer : Type := mkAnswer {
  answer : string;
  processing_time : float;
  sources : list Document
}.

(** ** Schemas ([models/schemas.py]) *)

Record DocumentUploadResponse : Type := mkUploadResponse {
  ur_document_id : string;
  ur_filename : string;
  ur_status : string;
  ur_message : string
}.

Record QueryRequest : Type := mkQueryRequest {
  query : string;
  top_k : Z
}.

Record DocumentChunk : Type := mkDocumentChunk {
  dc_content : string;
  dc_metadata : dict;
  dc_score : option float
}.

Record QueryResponse : Type := mkQueryResponse {
  qr_query : string;
  qr_answer : string;
  qr_sources : list DocumentChunk;
  qr_processing_time : float
}.

(** FastAPI's [UploadFile]. *)
Record UploadFile : Type := mkUploadFile {
  filename : string;
  content_type : string;
  file_bytes : string
}.



(** The dictionary returned by [send_document_event]. *)
Inductive SendResult : Type :=
| SendOk
| SendFailed (error : string).

(** The dictionary returned by [process_document_function]. *)
Inductive ProcessResult : Type :=
| ProcessOk (document_id : string) (chunks_processed : nat) (point_ids : list string)
| ProcessFailed (document_id : string) (error : string).

Definition success (r : ProcessResult) : bool :=
  match r with ProcessOk _ _ _ => true | ProcessFailed _ _ => false end.

(** The data of a ["document/uploaded"] event. *)
Record EventData : Type := mkEventData {
  ed_document_id : string;
  ed_file_path : string;
  ed_filename : string
}.

(** * Sample collaborators

    Concrete stand-ins for the outside world, used to run the program on
    examples. *)

(** A splitter that cuts every [n] characters. *)
Fixpoint hard_cuts (fuel n : nat) (s : string) : list string :=
  match fuel with
  | O => []
  | S fuel' =>
      if decide (s = "") then []
      else String.substring 0 n s
             :: hard_cuts fuel' n (String.substring n (String.length s - n) s)
  end.

Definition sample_splitter_new (chunk_size chunk_overlap : Z) : PyExn + nat :=
  inr (Z.to_nat chunk_size).

Definition sample_split_text (n : nat) (s : string) : list string :=
  hard_cuts (String.length s) n s.

(** A splitter constructor that refuses an overlap above the chunk size
    with a [ValueError]. *)
Definition strict_splitter_new (chunk_size chunk_overlap : Z) : PyExn + nat :=
  if decide (chunk_overlap > chunk_size)%Z
  then inl (OtherException "ValueError" "Got a larger chunk overlap than chunk size")
  else inr (Z.to_nat chunk_size).

(** A reader for which every file is one page of text. *)
Definition sample_PdfReader (file : string) : PyExn + list string := inr [file].

(** An embedding model that answers with three numbers. *)
Definition sample_embeddings (w : World) (model text : string)
    : PyExn + list (list float) :=
  inr [[1%Q; 2%Q; 3%Q]].

(** An embedding model that cannot be reached. *)
Definition failing_embeddings (w : World) (model text : string)
    : PyExn + list (list float) :=
  inl (OtherException "APIConnectionError" "Connection error.").

Definition sample_chat (w : World) (model system prompt : string)
    : PyExn + list string :=
  inr ["The deadline is Friday."].

Definition no_fault (w : World) (ev : Event) : option PyExn := None.

Definition sample_similarity (a b : list float) : float := 1%Q.

(** Inngest without an event key: sending fails. *)
Definition sample_inngest_send (w : World) (data : EventData) : PyExn + unit :=
  inl (OtherException "Exception" "event key not configured").

Definition sample_uuid4 (n : nat) : string := pretty n.

Definition sample_time (w : World) : float :=
  inject_Z (Z.of_nat (length (trace w))).

Definition sample_float_str (q : float) : string := "0.0".

Definition sample_settings : Settings :=
  mkSettings "documents" "" 16 2 "text-embedding-3-small" "gpt-4-turbo-preview".

Definition sample_store : VectorStore :=
  mkVectorStore "documents" "text-embedding-3-small" 1536.

Definition empty_world : World := mkWorld ∅ ∅ 0 [].

(** A world with an empty collection and one uploaded file. *)
Definition sample_world : World :=
  mkWorld {["uploads/d1_report.pdf" := "0123456789"]} {["documents" := []]} 0 [].

Definition sample_event : EventData :=
  mkEventData "d1" "uploads/d1_report.pdf" "report.pdf".

Definition sample_point (id doc : string) : PointStruct :=
  mkPoint id [1%Q; 2%Q; 3%Q]
    (<["document_id" := VStr doc]> {["content" := VStr "lorem"]}).

(** A world whose collection holds chunks of two documents. *)
Definition stocked_world : World :=
  mkWorld ∅
    {["documents" := [sample_point "0" "d1"; sample_point "1" "d2";
                      sample_point "2" "d1"]]}
    3 [].

(** Inngest with an event key: sending works. *)
Definition working_inngest_send (w : World) (data : EventData) : PyExn + unit :=
  inr tt.

(** A reader for a document of three pages, the second without text. *)
Definition three_page_PdfReader (file : string) : PyExn + list string :=
  inr ["alpha"; ""; "gamma"].

(** A world whose collection does not exist yet. *)
Definition bare_world : World :=
  mkWorld {["uploads/d1_report.pdf" := "0123456789"]} ∅ 0 [].

(** A reader for a scanned document: two pages, neither with text. *)
Definition blank_PdfReader (file : string) : PyExn + list string :=
  inr [""; ""].

(** * The program *)

Section Program.

(** ** Collaborators *)

(** langchain's splitter: its constructor and its [split_text]. *)
Variable TextSplitter : Type.
Variable RecursiveCharacterTextSplitter : Z → Z → PyExn + TextSplitter.
Variable split_text : TextSplitter → string → list string.

(** pypdf: the text of every page of a file ([""] for a page without
    text), or the exception of [PdfReader] or [extract_text]. *)
Variable PdfReader : string → PyExn + list string.

(** OpenAI: the embeddings of [response.data] and the message contents of
    [response.choices]. *)
Variable embeddings_create : World → string → string → PyExn + list (list float).
Variable chat_completions_create : World → string → string → string → PyExn + list string.

(** Qdrant: whether a request fails, and the similarity it ranks by. *)
Variable qdrant_fault : World → Event → option PyExn.
Variable similarity : list float → list float → float.

(** Inngest, the operating system, [uuid.uuid4], [time.time] and the
    formatting of a float inside an f-string. *)
Variable inngest_send : World → EventData → PyExn + unit.
Variable os_fault : World → Event → option PyExn.
Variable uuid4 : nat → string.
Variable time_time : World → float.
Variable float_str : float → string.

(** [get_settings()] *)
Variable settings : Settings.

Definition fault_or {A} (fault : World → Event → option PyExn) (ev : Event)
    (a : A) (w : World) : PyExn + A :=
  match fault w ev with
  | Some e => inl e
  | None => inr a
  end.

Definition lift_exn {A} (r : PyExn + A) : M A := λ w, (r, w).

(** ** Operating system *)

Definition os_path_exists (path : string) : M bool := λ w,
  (inr (bool_decide (is_Some (files w !! path))), w).

Definition os_remove (path : string) : M unit :=
  extern (EvRemove path)
    (λ w, match files w !! path with
          | None => inl (OtherException "FileNotFoundError" path)
          | Some _ => fault_or os_fault (EvRemove path) tt w
          end)
    (λ _ w, set_files (delete path (files w)) w).

Definition os_makedirs (path : string) : M unit :=
  extern (EvMakedirs path) (fault_or os_fault (EvMakedirs path) tt) keep.

(** [open(path, "rb")] followed by reading the file. *)
Definition open_rb (path : string) : M string :=
  extern (EvOpen path "rb")
    (λ w, match files w !! path with
          | None => inl (OtherException "FileNotFoundError" path)
          | Some b => fault_or os_fault (EvOpen path "rb") b w
          end)
    keep.

(** [open(path, "wb")] creates or truncates the file. *)
Definition open_wb (path : string) : M unit :=
  extern (EvOpen path "wb") (fault_or os_fault (EvOpen path "wb") tt)
    (λ _ w, set_files (<[path := ""]> (files w)) w).

Definition file_write (path data : string) : M unit :=
  extern (EvWrite path) (fault_or os_fault (EvWrite path) tt)
    (λ _ w, set_files (<[path := data]> (files w)) w).

(** [str(uuid.uuid4())] *)
Definition uuid4_str : M string := λ w,
  let id := uuid4 (uuid_count w) in
  (inr id, set_uuid_count (S (uuid_count w)) (log (EvUuid id) w)).

(** ** [document_processor.py] *)

Record DocumentProcessor : Type := mkDocumentProcessor {
  dp_chunk_size : Z;
  dp_chunk_overlap : Z;
  text_splitter : TextSplitter
}.

Definition DocumentProcessor_init (chunk_size chunk_overlap : Z)
    : PyExn + DocumentProcessor :=
  match RecursiveCharacterTextSplitter chunk_size chunk_overlap with
  | inl e => inl e
  | inr splitter => inr (mkDocumentProcessor chunk_size chunk_overlap splitter)
  end.

Definition extract_text_from_pdf (self : DocumentProcessor) (file_path : string)
    : M string :=
  file ← open_rb file_path;
  pages ← lift_exn (PdfReader file);
  mret (foldl
          (λ text '(page_num, page_text),
             if decide (page_text = "") then text
             else text +:+ nl +:+ "--- Page " +:+ pretty (page_num + 1)%nat
                       +:+ " ---" +:+ nl +:+ page_text)
          "" (enumerate pages)).

Definition chunk_text (self : DocumentProcessor) (text : string)
    (metadata : option dict) : list Chunk :=
  let metadata := default ∅ metadata in
  let chunks := split_text (text_splitter self) text in
  foldl
    (λ result '(i, chunk),
       let chunk_metadata :=
         <["total_chunks" := VInt (Z.of_nat (length chunks))]>
           (<["chunk_index" := VInt (Z.of_nat i)]> metadata) in
       (result ++ [mkChunk chunk chunk_metadata])%list)
    [] (enumerate chunks).

Definition process_document (self : DocumentProcessor)
    (file_path document_id filename : string) : M (list Chunk) :=
  text ← extract_text_from_pdf self file_path;
  let metadata : dict :=
    <["file_path" := VStr file_path]>
      (<["filename" := VStr filename]>
         (<["document_id" := VStr document_id]> ∅)) in
  mret (chunk_text self text (Some metadata)).

(** ** [vector_store.py] *)

Definition client_get_collections : M (list string) :=
  extern EvGetCollections
    (λ w, fault_or qdrant_fault EvGetCollections (elements (dom (collections w))) w)
    keep.

Definition client_create_collection (name : string) : M unit :=
  extern (EvCreateCollection name)
    (λ w, match collections w !! name with
          | Some _ => inl (OtherException "UnexpectedResponse" "Conflict")
          | None => fault_or qdrant_fault (EvCreateCollection name) tt w
          end)
    (λ _ w, set_collections (<[name := []]> (collections w)) w).

Definition client_upsert (name : string) (batch : list PointStruct) : M unit :=
  extern (EvUpsert name batch)
    (λ w, match collections w !! name with
          | None => inl (OtherException "UnexpectedResponse" "Not Found")
          | Some _ => fault_or qdrant_fault (EvUpsert name batch) tt w
          end)
    (λ _ w, set_collections (alter (upsert_points batch) name (collections w)) w).

Definition client_search (name : string) (query_vector : list float) (limit : Z)
    : M (list ScoredPoint) :=
  extern (EvSearch name query_vector limit)
    (λ w, match collections w !! name with
          | None => inl (OtherException "UnexpectedResponse" "Not Found")
          | Some pts =>
              fault_or qdrant_fault (EvSearch name query_vector limit)
                (search_points similarity query_vector limit pts) w
          end)
    keep.

(** [client.delete] turns its [points_selector] into a request before it
    sends anything: a selector object of the client's models goes to the
    server as a deletion by filter; a value of any other Python type, a
    plain [dict] among them, is refused with [ValueError] and no request is
    made. *)
Definition client_delete (name : string) (points_selector : PointsSelector) : M unit :=
  match points_selector with
  | FilterSelector must =>
      extern (EvDelete name must)
        (λ w, match collections w !! name with
              | None => inl (OtherException "UnexpectedResponse" "Not Found")
              | Some _ => fault_or qdrant_fault (EvDelete name must) tt w
              end)
        (λ _ w, set_collections (alter (delete_points must) name (collections w)) w)
  | DictSelector _ =>
      raise (OtherException "ValueError"
               "Unsupported points selector type: <class 'dict'>")
  end.

Definition _ensure_collection_exists (self : VectorStore) : M unit :=
  collection_names ← client_get_collections;
  if decide (collection_name self ∈ collection_names) then mret tt
  else client_create_collection (collection_name self).

Definition VectorStore_init (collection_name embedding_model : string) : M VectorStore :=
  let self := mkVectorStore collection_name embedding_model 1536 in
  _ensure_collection_exists self;;
  mret self.

Definition generate_embedding (self : VectorStore) (text : string) : M (list float) :=
  data ← extern (EvEmbed (vs_embedding_model self) text)
           (λ w, embeddings_create w (vs_embedding_model self) text) keep;
  match data with
  | [] => raise (OtherException "IndexError" "list index out of range")
  | embedding :: _ => mret embedding
  end.

(** The first loop of [add_documents]. *)
Fixpoint add_documents_points (self : VectorStore) (chunks : list Chunk)
    (points : list PointStruct) (point_ids : list string)
    : M (list PointStruct * list string) :=
  match chunks with
  | [] => mret (points, point_ids)
  | chunk :: rest =>
      embedding ← generate_embedding self (content chunk);
      point_id ← uuid4_str;
      let point :=
        mkPoint point_id embedding
          (metadata chunk ∪ {["content" := VStr (content chunk)]}) in
      add_documents_points self rest (points ++ [point])%list (point_ids ++ [point_id])%list
  end.

(** The second loop of [add_documents]. *)
Fixpoint upsert_batches (self : VectorStore) (batches : list (list PointStruct))
    : M unit :=
  match batches with
  | [] => mret tt
  | batch :: rest =>
      client_upsert (collection_name self) batch;;
      upsert_batches self rest
  end.

Definition batch_size : nat := 100.

Definition add_documents (self : VectorStore) (chunks : list Chunk) : M (list string) :=
  '(points, point_ids) ← add_documents_points self chunks [] [];
  upsert_batches self (slices batch_size points);;
  mret point_ids.

(** One entry of the list built by [search]. *)
Definition format_result (result : ScoredPoint) : Document :=
  mkDocument
    (dict_get (sp_payload result) "content" (VStr ""))
    (filter (λ kv, kv.1 ≠ "content") (sp_payload result))
    (sp_score result).

Definition search (self : VectorStore) (query : string) (top_k : Z)
    : M (list Document) :=
  query_embedding ← generate_embedding self query;
  results ← client_search (collection_name self) query_embedding top_k;
  mret (format_result <$> results).

(** The selector is written as a dictionary literal
    [{"filter": {"must": [{"key": "document_id", "match": {"value": ...}}]}}]. *)
Definition delete_by_document_id (self : VectorStore) (document_id : string) : M unit :=
  client_delete (collection_name self)
    (DictSelector [("document_id", VStr document_id)]).

Definition health_check (self : VectorStore) : M bool :=
  try_except (client_get_collections;; mret true) (λ _, mret false).

(** ** [rag_service.py] *)

(** A value inside an f-string. *)
Definition py_str (v : PyVal) : string :=
  match v with
  | VNone => "None"
  | VStr s => s
  | VInt z => pretty z
  | VFloat q => float_str q
  end.

(** [sep.join(parts)] *)
Fixpoint str_join (sep : string) (parts : list string) : string :=
  match parts with
  | [] => ""
  | [part] => part
  | part :: rest => part +:+ sep +:+ str_join sep rest
  end.

Definition _build_context (documents : list Document) : string :=
  let context_parts :=
    foldl
      (λ parts '(i, doc),
         let content := doc_content doc in
         let filename := dict_get (doc_metadata doc) "filename" (VStr "Unknown") in
         (parts ++ ["[Source " +:+ pretty (i + 1)%nat +:+ " - " +:+ py_str filename
                    +:+ "]" +:+ nl +:+ py_str content +:+ nl])%list)
      [] (enumerate documents) in
  str_join (nl +:+ "---" +:+ nl) context_parts.

Definition _create_prompt (query context : string) : string :=
  "Context from documents:" +:+ nl +:+ nl +:+ context +:+ nl +:+ nl +:+ "---"
  +:+ nl +:+ nl +:+ "Question: " +:+ query +:+ nl +:+ nl
  +:+ "Please provide a comprehensive answer based on the context above. If the context doesn't contain relevant information, please state that clearly.".

Definition system_message : string :=
  "You are a helpful assistant that answers questions based on the provided context. "
  +:+ "Always cite information from the context when answering. "
  +:+ "If the context doesn't contain enough information to answer the question, "
  +:+ "say so clearly.".

(** [time.time()] *)
Definition time_now : M float := λ w, (inr (time_time w), w).

Definition generate_answer (self : RAGService) (query : string)
    (context_documents : list Document) : M Answer :=
  start_time ← time_now;
  let context := _build_context context_documents in
  let prompt := _create_prompt query context in
  choices ← extern (EvChat (model self) prompt)
              (λ w, chat_completions_create w (model self) system_message prompt) keep;
  answer ← match choices with
            | [] => raise (OtherException "IndexError" "list index out of range")
            | message :: _ => mret message
            end;
  end_time ← time_now;
  mret (mkAnswer answer (end_time - start_time)%Q context_documents).

(** ** [inngest_service.py] *)

(** [step.run(step_id, handler)] runs the handler and hands back its result
    or its exception. *)
Definition step_run {A} (step_id : string) (handler : M A) : M A := handler.

(** [os.remove(file_path) if os.path.exists(file_path) else None] *)
Definition remove_if_exists (file_path : string) : M unit :=
  os_path_exists file_path ≫= λ file_exists : bool,
  if file_exists then os_remove file_path else mret tt.

Definition process_document_function (event_data : EventData) : M ProcessResult :=
  let document_id := ed_document_id event_data in
  let file_path := ed_file_path event_data in
  let filename := ed_filename event_data in
  try_except
    (processor ← lift_exn (DocumentProcessor_init (chunk_size settings)
                             (chunk_overlap settings));
     chunks ← step_run "process-pdf"
                (process_document processor file_path document_id filename);
     vector_store ← VectorStore_init (qdrant_collection_name settings)
                       (embedding_model settings);
     point_ids ← step_run "store-embeddings" (add_documents vector_store chunks);
     step_run "cleanup" (remove_if_exists file_path);;
     mret (ProcessOk document_id (length chunks) point_ids))
    (λ e, mret (ProcessFailed document_id (exn_str e))).

Definition send_document_event (document_id file_path filename : string)
    : M SendResult :=
  try_except
    (extern (EvSend document_id file_path filename)
       (λ w, inngest_send w (mkEventData document_id file_path filename)) keep;;
     mret SendOk)
    (λ e, mret (SendFailed (exn_str e))).

(** ** [api/routes.py] *)

(** The module's [vector_store] and [rag_service]. *)
Definition vector_store : VectorStore :=
  mkVectorStore (qdrant_collection_name settings) (embedding_model settings) 1536.

Definition rag_service : RAGService := mkRAGService (chat_model settings).

(** The [else] branch of [upload_document]: processing in the request
    itself when the event could not be sent. *)
Definition upload_document_fallback (file : UploadFile)
    (document_id file_path : string) : M DocumentUploadResponse :=
  processor ← lift_exn (DocumentProcessor_init (chunk_size settings)
                           (chunk_overlap settings));
  chunks ← process_document processor file_path document_id (filename file);
  add_documents vector_store chunks;;
  remove_if_exists file_path;;
  mret (mkUploadResponse document_id (filename file) "completed"
          "Document processed successfully (synchronous mode)").

Definition upload_document (file : UploadFile) : M DocumentUploadResponse :=
  if negb (endswith (filename file) ".pdf") then
    raise (HTTPException 400 "Only PDF files are supported")
  else
    try_except
      (document_id ← uuid4_str;
       os_makedirs "uploads";;
       let file_path := "uploads/" +:+ document_id +:+ "_" +:+ filename file in
       open_wb file_path;;
       file_write file_path (file_bytes file);;
       event_result ← send_document_event document_id file_path (filename file);
       match event_result with
       | SendOk =>
           mret (mkUploadResponse document_id (filename file) "processing"
                   "Document uploaded successfully and is being processed")
       | SendFailed _ => upload_document_fallback file document_id file_path
       end)
      (λ e, raise (HTTPException 500 ("Error processing document: " +:+ exn_str e))).

(** [DocumentChunk(content=..., metadata=..., score=...)]: the model
    validates that the content is a string. *)
Definition DocumentChunk_init (doc : Document) : PyExn + DocumentChunk :=
  match doc_content doc with
  | VStr s => inr (mkDocumentChunk s (doc_metadata doc) (Some (doc_score doc)))
  | _ => inl (OtherException "ValidationError" "content: Input should be a valid string")
  end.

Fixpoint format_sources (docs : list Document) : PyExn + list DocumentChunk :=
  match docs with
  | [] => inr []
  | doc :: rest =>
      match DocumentChunk_init doc with
      | inl e => inl e
      | inr c =>
          match format_sources rest with
          | inl e => inl e
          | inr cs => inr (c :: cs)
          end
      end
  end.

Definition no_documents_detail : string :=
  "No relevant documents found. Please upload documents first.".

Definition query_documents (request : QueryRequest) : M QueryResponse :=
  try_except
    (documents ← search vector_store (query request) (top_k request);
     match documents with
     | [] => raise (HTTPException 404 no_documents_detail)
     | _ => mret tt
     end;;
     result ← generate_answer rag_service (query request) documents;
     sources ← lift_exn (format_sources (sources result));
     mret (mkQueryResponse (query request) (answer result) sources
             (processing_time result)))
    (λ e, if is_HTTPException e then raise e
          else raise (HTTPException 500 ("Error processing query: " +:+ exn_str e))).

(** What the [except] clauses of [query_documents] raise for [e]. *)
Definition query_failure (e : PyExn) : PyExn :=
  if is_HTTPException e then e
  else HTTPException 500 ("Error processing query: " +:+ exn_str e).

(** The files on disk are untouched. *)
Definition same_files (w w' : World) : Prop := files w' = files w.

(** The trace grew by events that all satisfy [P]. *)
Definition emits (P : Event → Prop) (w w' : World) : Prop :=
  ∃ evs, trace w' = (trace w ++ evs)%list ∧ Forall P evs.

(** The events added between two worlds. *)
Definition new_events (w w' : World) : list Event :=
  drop (length (trace w)) (trace w').

(** Every point of the collection carries an identifier that [uuid4] has
    already handed out. *)
Definition store_ids_issued (self : VectorStore) (w : World) : Prop :=
  ∀ pts p, collections w !! collection_name self = Some pts → p ∈ pts →
    ∃ k, (k < uuid_count w)%nat ∧ point_id p = uuid4 k.

(** The payload [add_documents] stores for a chunk. *)
Definition chunk_payload (chunk : Chunk) : dict :=
  metadata chunk ∪ {["content" := VStr (content chunk)]}.

(** The calls the first loop of [add_documents] makes. *)
Definition embed_or_uuid (ev : Event) : Prop :=
  match ev with
  | EvEmbed _ _ | EvUuid _ => True
  | _ => False
  end.

(** The calls that neither write to the index nor remove a file. *)
Definition quiet (ev : Event) : Prop :=
  match ev with
  | EvUpsert _ _ | EvRemove _ => False
  | _ => True
  end.

(** [R] relates the world before every run of [m] to the world after. *)
Definition step_inv {A} (R : World → World → Prop) (m : M A) : Prop :=
  ∀ w r w', m w = (r, w') → R w w'.

(** Nothing on disk changes and only quiet calls are made. *)
Definition calm (w w' : World) : Prop :=
  same_files w w' ∧ emits quiet w w'.

(** What a completed ingestion of [chunks] looks like between the worlds
    [w] and [w']: the new events are quiet ones, then the writes of all
    the chunks' points to the collection [name] (which held [stored]
    before), then the removal of the file, and nothing after it. *)
Definition stored_before_cleanup (name file_path : string) (chunks : list Chunk)
    (ids : list string) (stored : gmap string (list PointStruct))
    (w w' : World) : Prop :=
  ∃ points batches before,
    point_id <$> points = ids
    ∧ Forall2 (λ chunk p, payload p = chunk_payload chunk) chunks points
    ∧ concat batches = points
    ∧ new_events w w'
      = (before ++ (EvUpsert name <$> batches) ++ [EvRemove file_path])%list
    ∧ Forall quiet before
    ∧ collections w' = alter (upsert_points points) name stored
    ∧ is_Some (files w !! file_path)
    ∧ files w' = delete file_path (files w).

(** ** More of [api/routes.py] and relations used below *)

(** [HealthResponse] of [models/schemas.py]. *)
Record HealthResponse : Type := mkHealthResponse {
  hr_status : string;
  hr_qdrant_connected : bool;
  hr_timestamp : float
}.

(** The [/health] endpoint ([health_check] of [routes.py]);
    [datetime.utcnow()] reads the clock. *)
Definition routes_health_check : M HealthResponse :=
  health_check vector_store ≫= λ qdrant_connected : bool,
  timestamp ← time_now;
  mret (mkHealthResponse (if qdrant_connected then "healthy" else "degraded")
          qdrant_connected timestamp).

(** Neither the files nor the index nor the identifier counter change. *)
Definition read_only (w w' : World) : Prop :=
  files w' = files w ∧ collections w' = collections w ∧ uuid_count w' = uuid_count w.

(** The index is as before. *)
Definition same_collections (w w' : World) : Prop :=
  collections w' = collections w.

(** The text block [extract_text_from_pdf] adds for the page at (0-based)
    position [page_num]. *)
Definition page_block (page_num : nat) (page_text : string) : string :=
  if decide (page_text = "") then ""
  else nl +:+ "--- Page " +:+ pretty (page_num + 1)%nat +:+ " ---" +:+ nl +:+ page_text.

(** The block [_build_context] makes for the document at (0-based)
    position [i]. *)
Definition source_block (i : nat) (doc : Document) : string :=
  "[Source " +:+ pretty (i + 1)%nat +:+ " - "
  +:+ py_str (dict_get (doc_metadata doc) "filename" (VStr "Unknown"))
  +:+ "]" +:+ nl +:+ py_str (doc_content doc) +:+ nl.

(** * Properties *)

(** ** Running the monad *)

Lemma bind_run {A B} (m : M A) (k : A → M B) (w : World) :
  (m ≫= k) w =
  match m w with
  | (inl e, w1) => (inl e, w1)
  | (inr a, w1) => k a w1
  end.
Proof. reflexivity. Qed.

Lemma ret_bind {A B} (a : A) (k : A → M B) (w : World) :
  (mret a ≫= k) w = k a w.
Proof. reflexivity. Qed.

Lemma bind_inr {A B} (m : M A) (k : A → M B) w b w' :
  (m ≫= k) w = (inr b, w') →
  ∃ a w1, m w = (inr a, w1) ∧ k a w1 = (inr b, w').
Proof.
  rewrite bind_run. destruct (m w) as [[e|a] w1] eqn:E; [discriminate|].
  intros H. by exists a, w1.
Qed.

Lemma bind_inl {A B} (m : M A) (k : A → M B) w e w' :
  (m ≫= k) w = (inl e, w') →
  m w = (inl e, w') ∨ ∃ a w1, m w = (inr a, w1) ∧ k a w1 = (inl e, w').
Proof.
  rewrite bind_run. destruct (m w) as [[e1|a] w1] eqn:E; intros H.
  - left. by injection H as -> ->.
  - right. by exists a, w1.
Qed.

Lemma extern_run {A} (ev : Event) (answer : World → PyExn + A) upd w :
  extern ev answer upd w =
  match answer w with
  | inl e => (inl e, log ev w)
  | inr a => (inr a, upd a (log ev w))
  end.
Proof. reflexivity. Qed.

(** ** Relations between the world before and after a computation *)

Section StepInv.
Context (R : World → World → Prop) `{!PreOrder R}.

Lemma step_inv_ret {A} (a : A) : step_inv R (mret a).
Proof. intros w r w' [= _ <-]. reflexivity. Qed.

Lemma step_inv_raise {A} (e : PyExn) : step_inv R (@raise A e).
Proof. intros w r w' [= _ <-]. reflexivity. Qed.

Lemma step_inv_lift {A} (r : PyExn + A) : step_inv R (lift_exn r).
Proof. intros w r' w' [= _ <-]. reflexivity. Qed.

Lemma step_inv_bind {A B} (m : M A) (k : A → M B) :
  step_inv R m → (∀ a, step_inv R (k a)) → step_inv R (m ≫= k).
Proof.
  intros Hm Hk w r w'. rewrite bind_run.
  destruct (m w) as [[e|a] w1] eqn:E; intros H.
  - injection H as _ <-. eapply Hm, E.
  - transitivity w1; [eapply Hm, E | eapply Hk, H].
Qed.

Lemma step_inv_try {A} (body : M A) (handler : PyExn → M A) :
  step_inv R body → (∀ e, step_inv R (handler e)) → step_inv R (try_except body handler).
Proof.
  intros Hm Hk w r w'. unfold try_except.
  destruct (body w) as [[e|a] w1] eqn:E; intros H.
  - transitivity w1; [eapply Hm, E | eapply Hk, H].
  - injection H as _ <-. eapply Hm, E.
Qed.

Lemma step_inv_extern {A} ev (answer : World → PyExn + A) upd :
  (∀ w, R w (log ev w)) →
  (∀ w a, answer w = inr a → R w (upd a (log ev w))) →
  step_inv R (extern ev answer upd).
Proof.
  intros Hlog Hupd w r w'. rewrite extern_run.
  destruct (answer w) as [e|a] eqn:E; intros [= _ <-]; auto.
Qed.
End StepInv.

#[local] Instance same_files_pre : PreOrder same_files.
Proof.
  split; [intros w; reflexivity|].
  intros w1 w2 w3 H1 H2. unfold same_files in *. congruence.
Qed.

#[local] Instance emits_pre P : PreOrder (emits P).
Proof.
  split.
  - intros w. exists []. by rewrite app_nil_r.
  - intros w1 w2 w3 (e1 & H1 & F1) (e2 & H2 & F2).
    exists (e1 ++ e2)%list. split; [by rewrite H2, H1, app_assoc|].
    by apply Forall_app.
Qed.

Lemma emits_new_events P w w' :
  emits P w w' → Forall P (new_events w w').
Proof.
  intros (evs & H & F). unfold new_events.
  by rewrite H, drop_app_length.
Qed.

(** ** The chunker ([chunk_text]) *)

Lemma foldl_enumerate_append {A B} (f : nat → A → B) (l : list A) (acc : list B) k :
  foldl (λ result '(i, x), (result ++ [f i x])%list) acc (zip (seq k (length l)) l)
  = (acc ++ imap (λ i, f (k + i)%nat) l)%list.
Proof.
  revert acc k. induction l as [|x l IH]; intros acc k; simpl.
  - by rewrite app_nil_r.
  - rewrite IH, <- app_assoc. simpl. rewrite Nat.add_0_r.
    do 2 f_equal. apply imap_ext. intros i y _. simpl. f_equal. lia.
Qed.

Lemma chunk_text_imap (self : DocumentProcessor) text md :
  chunk_text self text md
  = imap (λ i chunk,
            mkChunk chunk
              (<["total_chunks" :=
                   VInt (Z.of_nat (length (split_text (text_splitter self) text)))]>
                 (<["chunk_index" := VInt (Z.of_nat i)]> (default ∅ md))))
      (split_text (text_splitter self) text).
Proof.
  unfold chunk_text, enumerate.
  by rewrite (foldl_enumerate_append
             (λ i chunk, mkChunk chunk
                (<["total_chunks" :=
                     VInt (Z.of_nat (length (split_text (text_splitter self) text)))]>
                   (<["chunk_index" := VInt (Z.of_nat i)]> (default ∅ md))))).
Qed.

(** X2: the contents of the chunks are exactly the pieces the splitter
    returned, in the same order: the chunker drops, adds, reorders and
    rewrites nothing. *)
Lemma chunk_text_contents (self : DocumentProcessor) text md :
  content <$> chunk_text self text md = split_text (text_splitter self) text.
Proof.
  rewrite chunk_text_imap. apply list_eq. intros i.
  rewrite list_lookup_fmap, list_lookup_imap.
  by destruct (split_text (text_splitter self) text !! i).
Qed.

Lemma chunk_text_length (self : DocumentProcessor) text md :
  length (chunk_text self text md) = length (split_text (text_splitter self) text).
Proof. by rewrite chunk_text_imap, length_imap. Qed.

(** C1: for every text and base metadata, the chunk at position [i] of the
    chunker's result carries the base metadata merged with
    [chunk_index = i] and [total_chunks =] the length of the result; so
    [chunk_index] counts up from 0 and [total_chunks] is the same on every
    chunk. *)
Theorem chunk_text_metadata (self : DocumentProcessor) (text : string)
    (md : option dict) (i : nat) :
  (i < length (chunk_text self text md))%nat →
  ∃ c, chunk_text self text md !! i = Some c
     ∧ metadata c =
         <["total_chunks" := VInt (Z.of_nat (length (chunk_text self text md)))]>
           (<["chunk_index" := VInt (Z.of_nat i)]> (default ∅ md))
     ∧ metadata c !! "chunk_index" = Some (VInt (Z.of_nat i))
     ∧ metadata c !! "total_chunks"
         = Some (VInt (Z.of_nat (length (chunk_text self text md)))).
Proof.
  intros Hi. rewrite chunk_text_length in *.
  destruct (lookup_lt_is_Some_2 _ _ Hi) as [chunk Hc].
  eexists. split.
  { rewrite chunk_text_imap, list_lookup_imap, Hc. reflexivity. }
  simpl. split; [reflexivity|]. split.
  - by rewrite lookup_insert_ne, lookup_insert_eq.
  - by rewrite lookup_insert_eq.
Qed.

(** ** Construction of the chunker ([DocumentProcessor.__init__]) *)

(** C5 (amended): the constructor checks nothing itself.  It hands
    [chunk_size] and [chunk_overlap] to the splitter's constructor as they
    are: it fails exactly when that constructor fails, with that
    constructor's exception, and otherwise succeeds and records both
    numbers unchanged. *)
Theorem DocumentProcessor_init_delegates (chunk_size chunk_overlap : Z) :
  (∀ e, DocumentProcessor_init chunk_size chunk_overlap = inl e
        ↔ RecursiveCharacterTextSplitter chunk_size chunk_overlap = inl e)
  ∧ (∀ dp, DocumentProcessor_init chunk_size chunk_overlap = inr dp
           ↔ dp_chunk_size dp = chunk_size
             ∧ dp_chunk_overlap dp = chunk_overlap
             ∧ RecursiveCharacterTextSplitter chunk_size chunk_overlap
               = inr (text_splitter dp)).
Proof.
  unfold DocumentProcessor_init.
  destruct (RecursiveCharacterTextSplitter chunk_size chunk_overlap) as [e0|s];
    split.
  - intros e. split; congruence.
  - intros dp. split; [discriminate|]. intros (_ & _ & ?). discriminate.
  - intros e. split; discriminate.
  - intros [cs co s']. simpl. split.
    + intros [= -> -> ->]. auto.
    + intros (-> & -> & [= ->]). reflexivity.
Qed.

(** ** The embedder ([generate_embedding]) *)

Lemma generate_embedding_run (self : VectorStore) text w :
  generate_embedding self text w =
  (match embeddings_create w (vs_embedding_model self) text with
   | inl e => inl e
   | inr [] => inl (OtherException "IndexError" "list index out of range")
   | inr (embedding :: _) => inr embedding
   end,
   log (EvEmbed (vs_embedding_model self) text) w).
Proof.
  unfold generate_embedding. rewrite bind_run, extern_run.
  by destruct (embeddings_create w (vs_embedding_model self) text) as [e|[|v vs]].
Qed.

(** C7 (amended): for every text the embedder asks the embedding model
    once and returns the first embedding of the response as it is, of
    whatever length.  It fails only with the exception of the call itself,
    or with an [IndexError] when the response holds no embedding; an
    [EmbeddingError] is never raised by the embedder itself. *)
Theorem generate_embedding_first_item (self : VectorStore) (text : string) (w : World) :
  (generate_embedding self text w).2 = log (EvEmbed (vs_embedding_model self) text) w
  ∧ match embeddings_create w (vs_embedding_model self) text with
    | inl e => (generate_embedding self text w).1 = inl e
    | inr [] =>
        (generate_embedding self text w).1
        = inl (OtherException "IndexError" "list index out of range")
    | inr (embedding :: _) => (generate_embedding self text w).1 = inr embedding
    end
  ∧ (∀ msg, (generate_embedding self text w).1 = inl (OtherException "EmbeddingError" msg)
            → embeddings_create w (vs_embedding_model self) text
              = inl (OtherException "EmbeddingError" msg)).
Proof.
  rewrite generate_embedding_run. simpl.
  destruct (embeddings_create w (vs_embedding_model self) text) as [e|[|v vs]];
    repeat split; try done.
  intros msg [= ->]. reflexivity.
Qed.

(** ** The upload entry point ([upload_document]) *)


(** ** Search ([VectorStore.search]) *)

Lemma insert_by_score_perm x l : insert_by_score x l ≡ₚ x :: l.
Proof.
  induction l as [|y l IH]; simpl; [done|].
  destruct (Qle_bool (sp_score y) (sp_score x)); [done|].
  rewrite IH. apply Permutation_swap.
Qed.

Lemma sort_by_score_perm l : sort_by_score l ≡ₚ l.
Proof.
  induction l as [|x l IH]; simpl; [done|].
  by rewrite insert_by_score_perm, IH.
Qed.

(** Every hit is a stored point with its score. *)
Lemma search_points_elem query_vector limit pts hit :
  hit ∈ search_points similarity query_vector limit pts →
  ∃ p, p ∈ pts
     ∧ hit = mkScored (point_id p) (payload p) (similarity query_vector (vector p)).
Proof.
  unfold search_points. intros H.
  apply (subseteq_take (Z.to_nat limit)) in H.
  rewrite sort_by_score_perm in H.
  apply list_elem_of_fmap in H as (p & -> & Hp). eauto.
Qed.

Lemma search_points_length query_vector limit pts :
  (0 ≤ limit)%Z →
  (Z.of_nat (length (search_points similarity query_vector limit pts)) ≤ limit)%Z.
Proof.
  intros H. unfold search_points. rewrite length_take. lia.
Qed.

(** The comprehension that drops ["content"] is a deletion. *)
Lemma filter_content_delete (d : dict) :
  filter (λ kv, kv.1 ≠ "content") d = delete "content" d.
Proof.
  apply map_eq. intros k. apply option_eq. intros v.
  rewrite map_lookup_filter_Some, lookup_delete_Some. simpl.
  split; intros [? ?]; split; congruence.
Qed.

Lemma search_run (self : VectorStore) query top_k w :
  search self query top_k w =
  match embeddings_create w (vs_embedding_model self) query with
  | inl e => (inl e, log (EvEmbed (vs_embedding_model self) query) w)
  | inr [] => (inl (OtherException "IndexError" "list index out of range"),
               log (EvEmbed (vs_embedding_model self) query) w)
  | inr (v :: _) =>
      let w1 := log (EvEmbed (vs_embedding_model self) query) w in
      let w2 := log (EvSearch (collection_name self) v top_k) w1 in
      match collections w !! collection_name self with
      | None => (inl (OtherException "UnexpectedResponse" "Not Found"), w2)
      | Some pts =>
          match qdrant_fault w1 (EvSearch (collection_name self) v top_k) with
          | Some e => (inl e, w2)
          | None =>
              (inr (format_result <$> search_points similarity v top_k pts), w2)
          end
      end
  end.
Proof.
  unfold search. rewrite bind_run, generate_embedding_run.
  destruct (embeddings_create w (vs_embedding_model self) query) as [e|[|v vs]];
    try reflexivity.
  rewrite bind_run. unfold client_search. rewrite extern_run. simpl.
  destruct (collections w !! collection_name self) as [pts|]; [|reflexivity].
  unfold fault_or.
  by destruct (qdrant_fault _ _).
Qed.

Lemma search_inr (self : VectorStore) query top_k w docs w' :
  search self query top_k w = (inr docs, w') →
  ∃ v pts,
    collections w !! collection_name self = Some pts
    ∧ docs = format_result <$> search_points similarity v top_k pts
    ∧ w' = log (EvSearch (collection_name self) v top_k)
             (log (EvEmbed (vs_embedding_model self) query) w).
Proof.
  rewrite search_run.
  destruct (embeddings_create _ _ _) as [e|[|v vs]]; try discriminate.
  simpl. destruct (collections w !! collection_name self) as [pts|]; [|discriminate].
  destruct (qdrant_fault _ _); [discriminate|].
  intros [= <- <-]. by exists v, pts.
Qed.

(** C10: every match returned by [search] is built from the payload of a
    stored point: its metadata is that payload without the ["content"]
    key, so it never contains that key, and its content is the payload's
    ["content"] value, or the empty string when the payload has none. *)
Theorem search_metadata_without_content (self : VectorStore) (query : string)
    (top_k : Z) (w w' : World) (docs : list Document) (doc : Document) :
  search self query top_k w = (inr docs, w') →
  doc ∈ docs →
  ∃ pts p,
    collections w !! collection_name self = Some pts
    ∧ p ∈ pts
    ∧ doc_metadata doc = delete "content" (payload p)
    ∧ doc_metadata doc !! "content" = None
    ∧ doc_content doc = default (VStr "") (payload p !! "content").
Proof.
  intros Hs Hd. apply search_inr in Hs as (v & pts & Hc & -> & _).
  apply list_elem_of_fmap in Hd as (hit & -> & Hhit).
  apply search_points_elem in Hhit as (p & Hp & ->).
  exists pts, p. unfold format_result. simpl.
  rewrite filter_content_delete, lookup_delete_eq. auto.
Qed.

(** ** The query pipeline ([query_documents]) *)

Lemma new_events_app w w' evs :
  trace w' = (trace w ++ evs)%list → new_events w w' = evs.
Proof. intros H. unfold new_events. by rewrite H, drop_app_length. Qed.

Lemma search_trace (self : VectorStore) query top_k w :
  ∃ evs, trace (search self query top_k w).2 = (trace w ++ evs)%list
       ∧ ∀ model prompt, EvChat model prompt ∉ evs.
Proof.
  rewrite search_run.
  destruct (embeddings_create _ _ _) as [e|[|v vs]]; simpl.
  1,2: eexists; split; [reflexivity|]; intros m p;
       rewrite list_elem_of_singleton; discriminate.
  exists [EvEmbed (vs_embedding_model self) query;
          EvSearch (collection_name self) v top_k].
  split.
  - destruct (collections w !! collection_name self);
      [destruct (qdrant_fault _ _)|]; simpl; by rewrite <- app_assoc.
  - intros m p. rewrite !elem_of_cons, elem_of_nil.
    intros [|[|[]]]; discriminate.
Qed.

Lemma generate_answer_world (self : RAGService) query docs w :
  (generate_answer self query docs w).2
  = log (EvChat (model self) (_create_prompt query (_build_context docs))) w.
Proof.
  unfold generate_answer, time_now. rewrite bind_run. simpl.
  rewrite bind_run, extern_run.
  destruct (chat_completions_create _ _ _ _) as [e|[|a l]]; reflexivity.
Qed.

(** C3: when the search yields no match, the query pipeline answers with
    the 404 "no relevant documents" outcome and the language model is not
    called; it is not called when the search fails either.  The answer
    synthesizer is called, once and after the search, exactly when the
    search returned at least one match. *)
Theorem query_documents_no_match_no_llm (request : QueryRequest) (w : World) :
  let found := search vector_store (query request) (top_k request) w in
  let out := query_documents request w in
  match found.1 with
  | inr [] =>
      out = (inl (HTTPException 404 no_documents_detail), found.2)
      ∧ ∀ model prompt, EvChat model prompt ∉ new_events w out.2
  | inr (doc :: docs) =>
      new_events w out.2
      = (new_events w found.2
         ++ [EvChat (chat_model settings)
               (_create_prompt (query request) (_build_context (doc :: docs)))])%list
  | inl e =>
      out = (inl (query_failure e), found.2)
      ∧ ∀ model prompt, EvChat model prompt ∉ new_events w out.2
  end.
Proof.
  intros found out.
  destruct (search_trace vector_store (query request) (top_k request) w)
    as (evs & Htr & Hno).
  fold found in Htr.
  assert (out = match found with
                | (inl e, w1) => (inl (query_failure e), w1)
                | (inr [], w1) => (inl (HTTPException 404 no_documents_detail), w1)
                | (inr (doc :: docs), w1) =>
                    try_except
                      (result ← generate_answer rag_service (query request) (doc :: docs);
                       sources ← lift_exn (format_sources (sources result));
                       mret (mkQueryResponse (query request) (answer result) sources
                               (processing_time result)))
                      (λ e, raise (query_failure e)) w1
                end) as Hout.
  { subst out. unfold query_documents, try_except at 1. rewrite bind_run.
    fold found. destruct found as [[e|[|doc docs]] w1]; simpl.
    - unfold query_failure. by destruct (is_HTTPException e).
    - reflexivity.
    - rewrite ret_bind. unfold try_except, query_failure, raise.
      match goal with
      | |- context [match ?run with _ => _ end] =>
          destruct run as [[e|a] w2]; [|reflexivity]
      end.
      by destruct (is_HTTPException e). }
  destruct found as [[e|[|doc docs]] w1] eqn:Hf; simpl in *.
  - rewrite Hout. simpl. split; [reflexivity|].
    by rewrite (new_events_app _ _ _ Htr).
  - rewrite Hout. simpl. split; [reflexivity|].
    by rewrite (new_events_app _ _ _ Htr).
  - assert (out.2 = log (EvChat (chat_model settings)
                           (_create_prompt (query request)
                              (_build_context (doc :: docs)))) w1) as ->.
    { rewrite Hout. unfold try_except. rewrite bind_run.
      pose proof (generate_answer_world rag_service (query request) (doc :: docs) w1)
        as Hw.
      destruct (generate_answer rag_service (query request) (doc :: docs) w1)
        as [[e|res] w2]; simpl in Hw; subst w2; [reflexivity|].
      rewrite bind_run. unfold lift_exn.
      destruct (format_sources (sources res)); reflexivity. }
    rewrite (new_events_app _ _ _ Htr).
    apply new_events_app. simpl. by rewrite Htr, <- app_assoc.
Qed.

(** ** Deletion by document ([delete_by_document_id]) *)

Lemma alter_lookup_insert {A} (f : A → A) (m : gmap string A) i x :
  m !! i = Some x → alter f i m = <[i := f x]> m.
Proof.
  intros H. apply map_eq. intros j. destruct (decide (i = j)) as [->|Hne].
  - by rewrite lookup_alter_eq, lookup_insert_eq, H.
  - by rewrite lookup_alter_ne, lookup_insert_ne.
Qed.

(** The call is refused by the client before any request is made: whatever
    the store, the identifier and the world, [delete_by_document_id] raises
    [ValueError] and the world (index, files, history of calls) is as it
    was. *)
Lemma delete_by_document_id_run (self : VectorStore) document_id w :
  delete_by_document_id self document_id w
  = (inl (OtherException "ValueError"
            "Unsupported points selector type: <class 'dict'>"), w).
Proof. reflexivity. Qed.

(** Handed the same filter as a selector object, [client.delete] removes
    from the collection exactly the points whose payload carries the
    document identifier. *)
Lemma client_delete_filter_selector (name document_id : string) (w : World)
    (pts : list PointStruct) :
  collections w !! name = Some pts →
  qdrant_fault w (EvDelete name [("document_id", VStr document_id)]) = None →
  ∃ w',
    client_delete name (FilterSelector [("document_id", VStr document_id)]) w
    = (inr tt, w')
    ∧ collections w'
      = <[name := filter (λ p, payload p !! "document_id" ≠ Some (VStr document_id))
                    pts]> (collections w).
Proof.
  intros Hc Hf. eexists. unfold client_delete. rewrite extern_run, Hc.
  unfold fault_or. rewrite Hf. split; [reflexivity|]. simpl.
  rewrite (alter_lookup_insert _ _ _ _ Hc). f_equal.
  unfold delete_points. apply list_filter_iff. intros p.
  unfold matches_filter. simpl. rewrite andb_true_r.
  rewrite bool_decide_eq_false. reflexivity.
Qed.

(** ** Storing chunks ([add_documents]) *)

Lemma slices_aux_concat {A} fuel n (l : list A) :
  (0 < n)%nat → (length l ≤ fuel)%nat → concat (slices_aux fuel n l) = l.
Proof.
  intros Hn. revert l. induction fuel as [|fuel IH]; intros l Hl.
  - destruct l; [done|simpl in Hl; lia].
  - destruct l as [|x l]; [done|].
    change (take n (x :: l) ++ concat (slices_aux fuel n (drop n (x :: l)))
            = x :: l)%list.
    rewrite IH; [apply take_drop|].
    rewrite length_drop. simpl in *. lia.
Qed.

Lemma slices_aux_bound {A} fuel n (l : list A) :
  (0 < n)%nat →
  Forall (λ batch, (0 < length batch ≤ n)%nat) (slices_aux fuel n l).
Proof.
  intros Hn. revert l. induction fuel as [|fuel IH]; intros l; [constructor|].
  destruct l as [|x l]; [constructor|].
  change (Forall (λ batch, (0 < length batch ≤ n)%nat)
            (take n (x :: l) :: slices_aux fuel n (drop n (x :: l)))).
  constructor; [|apply IH].
  rewrite length_take. simpl. lia.
Qed.

Lemma slices_concat {A} n (l : list A) : (0 < n)%nat → concat (slices n l) = l.
Proof. intros Hn. by apply slices_aux_concat. Qed.

Lemma upsert_points_app b1 b2 pts :
  upsert_points (b1 ++ b2) pts = upsert_points b2 (upsert_points b1 pts).
Proof. unfold upsert_points. apply foldl_app. Qed.

Lemma client_upsert_run name batch w :
  client_upsert name batch w =
  match collections w !! name with
  | None => (inl (OtherException "UnexpectedResponse" "Not Found"),
             log (EvUpsert name batch) w)
  | Some _ =>
      match qdrant_fault w (EvUpsert name batch) with
      | Some e => (inl e, log (EvUpsert name batch) w)
      | None =>
          (inr tt,
           set_collections (alter (upsert_points batch) name (collections w))
             (log (EvUpsert name batch) w))
      end
  end.
Proof.
  unfold client_upsert. rewrite extern_run.
  destruct (collections w !! name); [|reflexivity].
  unfold fault_or. by destruct (qdrant_fault w _).
Qed.

Lemma upsert_batches_inr (self : VectorStore) batches w w' :
  upsert_batches self batches w = (inr tt, w') →
  collections w'
    = alter (upsert_points (concat batches)) (collection_name self) (collections w)
  ∧ files w' = files w
  ∧ uuid_count w' = uuid_count w
  ∧ trace w' = (trace w ++ (EvUpsert (collection_name self) <$> batches))%list.
Proof.
  revert w. induction batches as [|batch rest IH]; intros w; simpl.
  - intros [= <-]. rewrite app_nil_r. split; [|done].
    symmetry. apply alter_id. done.
  - rewrite bind_run, client_upsert_run.
    destruct (collections w !! collection_name self); [|discriminate].
    destruct (qdrant_fault w _); [discriminate|].
    intros H. apply IH in H as (Hc & Hf & Hu & Ht). simpl in *.
    rewrite Hc, Hf, Hu, Ht. repeat split.
    + rewrite alter_alter_eq. apply alter_ext. intros pts _. simpl.
      by rewrite upsert_points_app.
    + by rewrite <- app_assoc.
Qed.

Lemma add_documents_points_inr (self : VectorStore) chunks points point_ids w
    points' point_ids' w' :
  add_documents_points self chunks points point_ids w = (inr (points', point_ids'), w') →
  ∃ new evs,
    points' = (points ++ new)%list
    ∧ point_ids' = (point_ids ++ (point_id <$> new))%list
    ∧ point_id <$> new = uuid4 <$> seq (uuid_count w) (length chunks)
    ∧ Forall2 (λ chunk p, payload p = chunk_payload chunk) chunks new
    ∧ collections w' = collections w
    ∧ files w' = files w
    ∧ uuid_count w' = (uuid_count w + length chunks)%nat
    ∧ trace w' = (trace w ++ evs)%list
    ∧ Forall embed_or_uuid evs.
Proof.
  revert points point_ids w.
  induction chunks as [|chunk rest IH]; intros points point_ids w; simpl.
  - intros [= <- <- <-]. exists [], []. rewrite !app_nil_r, Nat.add_0_r.
    repeat split; constructor.
  - rewrite bind_run, generate_embedding_run.
    destruct (embeddings_create w _ _) as [e|[|v vs]]; try discriminate.
    rewrite bind_run. unfold uuid4_str at 1. intros H.
    apply IH in H as (new & evs & -> & -> & Hids & Hpay & Hc & Hf & Hu & Ht & He).
    simpl in *.
    eexists (_ :: new), (_ :: _ :: evs).
    rewrite <- !app_assoc. simpl. repeat split; try done.
    + f_equal. exact Hids.
    + by constructor.
    + lia.
    + by rewrite Ht, <- !app_assoc.
    + by repeat constructor.
Qed.


Lemma add_documents_inr (self : VectorStore) chunks w ids w' :
  add_documents self chunks w = (inr ids, w') →
  ∃ points evs,
    point_id <$> points = ids
    ∧ ids = uuid4 <$> seq (uuid_count w) (length chunks)
    ∧ Forall2 (λ chunk p, payload p = chunk_payload chunk) chunks points
    ∧ collections w'
      = alter (upsert_points points) (collection_name self) (collections w)
    ∧ files w' = files w
    ∧ uuid_count w' = (uuid_count w + length chunks)%nat
    ∧ trace w'
      = (trace w ++ evs
         ++ (EvUpsert (collection_name self) <$> slices batch_size points))%list
    ∧ Forall embed_or_uuid evs.
Proof.
  unfold add_documents. intros H.
  apply bind_inr in H as ([points ids0] & w1 & H1 & H).
  apply bind_inr in H as ([] & w2 & H2 & H). injection H as <- <-.
  apply add_documents_points_inr in H1
    as (new & evs & -> & -> & Hids & Hpay & Hc & Hf & Hu & Ht & He).
  apply upsert_batches_inr in H2 as (Hc2 & Hf2 & Hu2 & Ht2). simpl in *.
  exists new, evs. rewrite slices_concat in Hc2 by (unfold batch_size; lia).
  repeat split; try congruence.
  by rewrite Ht2, Ht, <- app_assoc.
Qed.

Lemma add_documents_points_succeeds (self : VectorStore) chunks :
  (∀ w text, ∃ v vs,
      embeddings_create w (vs_embedding_model self) text = inr (v :: vs)) →
  ∀ points point_ids w,
    ∃ r w', add_documents_points self chunks points point_ids w = (inr r, w').
Proof.
  intros Hemb. induction chunks as [|chunk rest IH]; intros points point_ids w; simpl.
  - by eexists _, _.
  - rewrite bind_run, generate_embedding_run.
    destruct (Hemb w (content chunk)) as (v & vs & ->).
    rewrite bind_run. unfold uuid4_str at 1. apply IH.
Qed.

Lemma upsert_batches_succeeds (self : VectorStore) batches w :
  (∀ w0 ev, qdrant_fault w0 ev = None) →
  is_Some (collections w !! collection_name self) →
  ∃ w', upsert_batches self batches w = (inr tt, w').
Proof.
  intros Hq. revert w. induction batches as [|batch rest IH]; intros w Hc; simpl.
  - by eexists.
  - rewrite bind_run, client_upsert_run. destruct Hc as [pts Hc].
    rewrite Hc, Hq. apply IH. simpl. rewrite lookup_alter_eq, Hc. by eexists.
Qed.

(** C6: [add_documents] draws a new identifier for every chunk and, when
    it returns, returns exactly these identifiers, one per chunk in the
    order of the chunks, pairwise different and different from every
    identifier already in the collection (as long as [uuid4] does not repeat
    itself).  The points go to the index in batches of at least one and at
    most 100 points, in order, and the collection ends up as after one
    single write of all points.  It does return whenever the embedding
    model and the index answer. *)
Theorem add_documents_identifiers (self : VectorStore) (chunks : list Chunk)
    (w : World) :
  Inj (=) (=) uuid4 →
  store_ids_issued self w →
  ((∀ w0 text, ∃ v vs,
       embeddings_create w0 (vs_embedding_model self) text = inr (v :: vs)) →
   (∀ w0 ev, qdrant_fault w0 ev = None) →
   is_Some (collections w !! collection_name self) →
   ∃ ids, (add_documents self chunks w).1 = inr ids)
  ∧ ∀ ids, (add_documents self chunks w).1 = inr ids →
      length ids = length chunks
      ∧ NoDup ids
      ∧ (∀ pts p, collections w !! collection_name self = Some pts →
                  p ∈ pts → point_id p ∉ ids)
      ∧ ∃ points batches evs,
          point_id <$> points = ids
          ∧ Forall2 (λ chunk p, payload p = chunk_payload chunk) chunks points
          ∧ new_events w (add_documents self chunks w).2
            = (evs ++ (EvUpsert (collection_name self) <$> batches))%list
          ∧ Forall embed_or_uuid evs
          ∧ concat batches = points
          ∧ Forall (λ batch, (0 < length batch ≤ 100)%nat) batches
          ∧ collections (add_documents self chunks w).2
            = alter (upsert_points points) (collection_name self) (collections w)
          ∧ ∀ w0 w1,
              collections w0 = collections w →
              client_upsert (collection_name self) points w0 = (inr tt, w1) →
              collections w1 = collections (add_documents self chunks w).2.
Proof.
  intros Hinj Hissued. split.
  - intros Hemb Hq Hc. unfold add_documents. rewrite bind_run.
    destruct (add_documents_points_succeeds self chunks Hemb [] [] w)
      as ([points ids] & w1 & H1).
    rewrite H1. rewrite bind_run.
    apply add_documents_points_inr in H1 as H1'.
    destruct H1' as (_ & _ & _ & _ & _ & _ & Hc1 & _).
    destruct (upsert_batches_succeeds self (slices batch_size points) w1 Hq)
      as (w2 & H2); [by rewrite Hc1|].
    rewrite H2. by exists ids.
  - intros ids Hrun.
    destruct (add_documents self chunks w) as [r w'] eqn:Hadd.
    simpl in Hrun. subst r.
    apply add_documents_inr in Hadd
      as (points & evs & Hpts & Hids & Hpay & Hc & Hf & Hu & Ht & He).
    simpl. split; [by rewrite Hids, length_fmap, length_seq|].
    split; [rewrite Hids; apply NoDup_fmap_2; [done|apply NoDup_seq]|].
    split.
    { intros pts p Hcoll Hp Hin.
      destruct (Hissued pts p Hcoll Hp) as (k & Hk & Hpk).
      rewrite Hids, Hpk in Hin.
      apply list_elem_of_fmap in Hin as (j & Hj & Hjin).
      apply Hinj in Hj. subst j. apply elem_of_seq in Hjin. lia. }
    exists points, (slices batch_size points), evs.
    repeat split; try done.
    + by apply new_events_app.
    + apply slices_concat. unfold batch_size. lia.
    + apply (slices_aux_bound _ batch_size). unfold batch_size. lia.
    + intros w0 w1 Hsame. rewrite client_upsert_run.
      destruct (collections w0 !! collection_name self); [|discriminate].
      destruct (qdrant_fault w0 _); [discriminate|].
      intros [= <-]. simpl. by rewrite Hc, Hsame.
Qed.

(** ** The ingestion pipeline *)

#[local] Instance calm_pre : PreOrder calm.
Proof.
  split.
  - intros w. split; reflexivity.
  - intros w1 w2 w3 [F1 E1] [F2 E2]. split; etransitivity; eassumption.
Qed.

Lemma step_inv_weaken {A} (R R' : World → World → Prop) (m : M A) :
  (∀ w w', R w w' → R' w w') → step_inv R m → step_inv R' m.
Proof. intros HR Hm w r w' H. eapply HR, Hm, H. Qed.

Lemma calm_log ev w w' :
  quiet ev → files w' = files w → trace w' = (trace w ++ [ev])%list → calm w w'.
Proof.
  intros Hq Hf Ht. split; [exact Hf|].
  exists [ev]. split; [exact Ht|]. by constructor.
Qed.

Lemma extern_calm {A} ev (answer : World → PyExn + A) upd :
  quiet ev →
  (∀ a w, files (upd a w) = files w ∧ trace (upd a w) = trace w) →
  step_inv calm (extern ev answer upd).
Proof.
  intros Hq Hupd. apply step_inv_extern.
  - intros w. by apply (calm_log ev).
  - intros w a _. destruct (Hupd a (log ev w)) as [Hf Ht].
    by apply (calm_log ev); [|rewrite Hf|rewrite Ht].
Qed.

Lemma generate_embedding_calm (self : VectorStore) text :
  step_inv calm (generate_embedding self text).
Proof.
  unfold generate_embedding. apply step_inv_bind; [apply _| |].
  - by apply extern_calm.
  - intros [|v vs]; [apply step_inv_raise|apply step_inv_ret]; apply _.
Qed.

Lemma uuid4_str_calm : step_inv calm uuid4_str.
Proof.
  intros w r w' [= _ <-].
  by apply (calm_log (EvUuid (uuid4 (uuid_count w)))).
Qed.

Lemma add_documents_points_calm (self : VectorStore) chunks points point_ids :
  step_inv calm (add_documents_points self chunks points point_ids).
Proof.
  revert points point_ids. induction chunks as [|chunk rest IH];
    intros points point_ids; simpl.
  - apply step_inv_ret, _.
  - apply step_inv_bind; [apply _|apply generate_embedding_calm|].
    intros v. apply step_inv_bind; [apply _|apply uuid4_str_calm|].
    intros id. apply IH.
Qed.

Lemma process_document_calm (self : DocumentProcessor) file_path document_id filename :
  step_inv calm (process_document self file_path document_id filename).
Proof.
  unfold process_document, extract_text_from_pdf.
  repeat (apply step_inv_bind; [apply _| |intros ?]);
    try (apply step_inv_ret, _); try (apply step_inv_lift, _).
  by apply extern_calm.
Qed.

Lemma VectorStore_init_calm name embedding_model :
  step_inv calm (VectorStore_init name embedding_model).
Proof.
  unfold VectorStore_init, _ensure_collection_exists.
  repeat (apply step_inv_bind; [apply _| |intros ?]);
    try (apply step_inv_ret, _).
  - by apply extern_calm.
  - case_decide; [apply step_inv_ret, _|]. by apply extern_calm.
Qed.

Lemma upsert_batches_same_files (self : VectorStore) batches :
  step_inv same_files (upsert_batches self batches).
Proof.
  induction batches as [|batch rest IH]; simpl; [apply step_inv_ret, _|].
  apply step_inv_bind; [apply _| |intros _; apply IH].
  apply step_inv_extern; by intros.
Qed.

Lemma add_documents_same_files (self : VectorStore) chunks :
  step_inv same_files (add_documents self chunks).
Proof.
  unfold add_documents. apply step_inv_bind; [apply _| |].
  - eapply step_inv_weaken; [|apply add_documents_points_calm]. by intros w w' [].
  - intros [points ids]. apply step_inv_bind; [apply _| |].
    + apply upsert_batches_same_files.
    + intros _. apply step_inv_ret, _.
Qed.

Lemma remove_if_exists_run file_path w :
  remove_if_exists file_path w =
  match files w !! file_path with
  | None => (inr tt, w)
  | Some _ =>
      match os_fault w (EvRemove file_path) with
      | Some e => (inl e, log (EvRemove file_path) w)
      | None =>
          (inr tt, set_files (delete file_path (files w)) (log (EvRemove file_path) w))
      end
  end.
Proof.
  unfold remove_if_exists. rewrite bind_run. unfold os_path_exists.
  destruct (files w !! file_path) as [b|] eqn:E; simpl.
  - unfold os_remove. rewrite extern_run, E. unfold fault_or.
    by destruct (os_fault w _).
  - reflexivity.
Qed.

Lemma remove_if_exists_inl file_path w e w' :
  remove_if_exists file_path w = (inl e, w') → files w' = files w.
Proof.
  rewrite remove_if_exists_run.
  destruct (files w !! file_path); [|discriminate].
  destruct (os_fault w _); [|discriminate]. by intros [= _ <-].
Qed.

Lemma process_document_inr (self : DocumentProcessor) file_path document_id
    filename w chunks w1 :
  process_document self file_path document_id filename w = (inr chunks, w1) →
  is_Some (files w !! file_path).
Proof.
  unfold process_document, extract_text_from_pdf. intros H.
  apply bind_inr in H as (text & w2 & H & _).
  apply bind_inr in H as (file & w3 & H & _).
  unfold open_rb in H. rewrite extern_run in H.
  destruct (files w !! file_path); [by eexists|discriminate].
Qed.

Lemma embed_or_uuid_quiet ev : embed_or_uuid ev → quiet ev.
Proof. by destruct ev. Qed.

(** Storing and then cleaning up, after a quiet start. *)
Lemma store_then_cleanup (vs : VectorStore) chunks file_path w w2 ids w3 w4 :
  calm w w2 →
  is_Some (files w !! file_path) →
  add_documents vs chunks w2 = (inr ids, w3) →
  remove_if_exists file_path w3 = (inr tt, w4) →
  stored_before_cleanup (collection_name vs) file_path chunks ids (collections w2) w w4.
Proof.
  intros [Hf (before & Ht & Hq)] [b Hb] Hadd Hrm.
  apply add_documents_inr in Hadd
    as (points & evs & Hpts & _ & Hpay & Hc & Hf3 & _ & Ht3 & He).
  rewrite remove_if_exists_run in Hrm.
  unfold same_files in Hf. rewrite Hf3, Hf, Hb in Hrm.
  destruct (os_fault w3 _); [discriminate|]. injection Hrm as <-.
  exists points, (slices batch_size points), (before ++ evs)%list.
  split_and!; [done|done| | | |done|by eexists|done].
  - apply slices_concat. unfold batch_size. lia.
  - apply new_events_app. simpl. rewrite Ht3, Ht. by rewrite <- !app_assoc.
  - apply Forall_app. split; [done|].
    eapply Forall_impl; [exact He|]. apply embed_or_uuid_quiet.
Qed.


(** Closes a goal [files w' = files w] from the facts about the stages run
    so far. *)
Ltac files_as_before :=
  repeat match goal with
         | H : calm _ _ |- _ => destruct H as [? _]
         end;
  unfold same_files in *; simpl; congruence.

(** C4: an ingestion run always ends in a result.  When it reports
    success, every stage returned normally, the new calls are quiet ones
    followed by the writes of all the document's chunks to the index and,
    last of all, the removal of the source file: the writes come before the
    deletion.  When it reports failure (as it does when any stage raises),
    the files on disk are as before the run, so the source file is still in
    place.  The same holds for the processing done inside the upload
    request, where completion is the ["completed"] response and failure an
    exception. *)
Theorem ingestion_stores_before_cleanup (event_data : EventData) (file : UploadFile)
    (document_id file_path : string) (w : World) :
  (∃ result,
     (process_document_function event_data w).1 = inr result
     ∧ match result with
       | ProcessOk doc_id n ids =>
           ∃ processor chunks w1 vs w2 w3,
             DocumentProcessor_init (chunk_size settings) (chunk_overlap settings)
               = inr processor
             ∧ process_document processor (ed_file_path event_data)
                 (ed_document_id event_data) (ed_filename event_data) w
               = (inr chunks, w1)
             ∧ VectorStore_init (qdrant_collection_name settings)
                 (embedding_model settings) w1
               = (inr vs, w2)
             ∧ add_documents vs chunks w2 = (inr ids, w3)
             ∧ remove_if_exists (ed_file_path event_data) w3
               = (inr tt, (process_document_function event_data w).2)
             ∧ doc_id = ed_document_id event_data
             ∧ n = length chunks
             ∧ stored_before_cleanup (qdrant_collection_name settings)
                 (ed_file_path event_data) chunks ids (collections w2) w
                 (process_document_function event_data w).2
       | ProcessFailed doc_id error =>
           doc_id = ed_document_id event_data
           ∧ files (process_document_function event_data w).2 = files w
       end)
  ∧ match (upload_document_fallback file document_id file_path w).1 with
    | inr response =>
        ur_status response = "completed"
        ∧ ∃ processor chunks ids w1 w3,
            DocumentProcessor_init (chunk_size settings) (chunk_overlap settings)
              = inr processor
            ∧ process_document processor file_path document_id (filename file) w
              = (inr chunks, w1)
            ∧ add_documents vector_store chunks w1 = (inr ids, w3)
            ∧ remove_if_exists file_path w3
              = (inr tt, (upload_document_fallback file document_id file_path w).2)
            ∧ stored_before_cleanup (qdrant_collection_name settings) file_path
                chunks ids (collections w1) w
                (upload_document_fallback file document_id file_path w).2
    | inl e => files (upload_document_fallback file document_id file_path w).2 = files w
    end.
Proof.
  split.
  - destruct (process_document_function event_data w) as [r w'] eqn:Hrun.
    simpl. revert Hrun.
    unfold process_document_function, try_except, step_run.
    rewrite bind_run. unfold lift_exn at 1.
    destruct (DocumentProcessor_init _ _) as [e|processor] eqn:Hdp.
    { intros [= <- <-]. eexists. split; [reflexivity|]. by split. }
    rewrite bind_run.
    destruct (process_document processor _ _ _ w) as [[e|chunks] w1] eqn:H1.
    { intros [= <- <-]. eexists. split; [reflexivity|]. split; [done|].
      apply process_document_calm in H1. files_as_before. }
    pose proof (process_document_calm _ _ _ _ _ _ _ H1) as Hcalm1.
    rewrite bind_run.
    destruct (VectorStore_init _ _ w1) as [[e|vs] w2] eqn:H2.
    { intros [= <- <-]. eexists. split; [reflexivity|]. split; [done|].
      apply VectorStore_init_calm in H2. files_as_before. }
    pose proof (VectorStore_init_calm _ _ _ _ _ H2) as Hcalm2.
    assert (calm w w2) as Hcalm by (etransitivity; eassumption).
    assert (collection_name vs = qdrant_collection_name settings) as Hname.
    { unfold VectorStore_init in H2.
      apply bind_inr in H2 as ([] & w0 & _ & H2). by injection H2 as <- _. }
    rewrite bind_run.
    destruct (add_documents vs chunks w2) as [[e|ids] w3] eqn:H3.
    { intros [= <- <-]. eexists. split; [reflexivity|]. split; [done|].
      apply add_documents_same_files in H3. files_as_before. }
    rewrite bind_run.
    destruct (remove_if_exists _ w3) as [[e|[]] w4] eqn:H4.
    { intros [= <- <-]. eexists. split; [reflexivity|]. split; [done|].
      apply remove_if_exists_inl in H4. apply add_documents_same_files in H3.
      files_as_before. }
    intros [= <- <-]. eexists. split; [reflexivity|]. simpl.
    exists processor, chunks, w1, vs, w2, w3.
    split_and!; try done.
    rewrite <- Hname. eapply store_then_cleanup; try eassumption.
    eapply process_document_inr, H1.
  - destruct (upload_document_fallback file document_id file_path w)
      as [r w'] eqn:Hrun.
    simpl. revert Hrun. unfold upload_document_fallback.
    rewrite bind_run. unfold lift_exn at 1.
    destruct (DocumentProcessor_init _ _) as [e|processor] eqn:Hdp.
    { by intros [= <- <-]. }
    rewrite bind_run.
    destruct (process_document processor _ _ _ w) as [[e|chunks] w1] eqn:H1.
    { intros [= <- <-]. apply process_document_calm in H1. files_as_before. }
    pose proof (process_document_calm _ _ _ _ _ _ _ H1) as Hcalm1.
    rewrite bind_run.
    destruct (add_documents vector_store chunks w1) as [[e|ids] w3] eqn:H3.
    { intros [= <- <-]. apply add_documents_same_files in H3. files_as_before. }
    rewrite bind_run.
    destruct (remove_if_exists _ w3) as [[e|[]] w4] eqn:H4.
    { intros [= <- <-]. apply remove_if_exists_inl in H4.
      apply add_documents_same_files in H3. files_as_before. }
    intros [= <- <-]. simpl. split; [done|].
    exists processor, chunks, ids, w1, w3.
    split_and!; try done.
    change (qdrant_collection_name settings) with (collection_name vector_store).
    eapply store_then_cleanup; try eassumption.
    eapply process_document_inr, H1.
Qed.

(** * Further properties of the program *)

(** ** Text extraction and tagging ([document_processor.py]) *)

Lemma string_app_nil_r (s : string) : s +:+ "" = s.
Proof.
  induction s as [|a s IH]; [done|].
  change (String a (s +:+ "") = String a s). by f_equal.
Qed.

Lemma string_app_assoc (s1 s2 s3 : string) :
  (s1 +:+ s2) +:+ s3 = s1 +:+ s2 +:+ s3.
Proof.
  induction s1 as [|a s1 IH]; [done|].
  change (String a ((s1 +:+ s2) +:+ s3) = String a (s1 +:+ s2 +:+ s3)). by f_equal.
Qed.

Lemma string_concat_cons (x : string) (l : list string) :
  String.concat "" (x :: l) = x +:+ String.concat "" l.
Proof. destruct l; simpl; [by rewrite string_app_nil_r|done]. Qed.

Lemma extract_fold (pages : list string) (acc : string) (k : nat) :
  foldl
    (λ text '(page_num, page_text),
       if decide (page_text = "") then text
       else text +:+ nl +:+ "--- Page " +:+ pretty (page_num + 1)%nat
                 +:+ " ---" +:+ nl +:+ page_text)
    acc (zip (seq k (length pages)) pages)
  = acc +:+ String.concat "" (imap (λ i, page_block (k + i)) pages).
Proof.
  revert acc k. induction pages as [|page pages IH]; intros acc k.
  - simpl. by rewrite string_app_nil_r.
  - cbn [length seq zip zip_with foldl]. rewrite IH.
    rewrite imap_cons, string_concat_cons, Nat.add_0_r.
    assert ((if decide (page = "") then acc
             else acc +:+ nl +:+ "--- Page " +:+ pretty (k + 1)%nat
                      +:+ " ---" +:+ nl +:+ page)
            = acc +:+ page_block k page) as ->.
    { unfold page_block. destruct (decide (page = "")); [|done].
      by rewrite string_app_nil_r. }
    rewrite string_app_assoc. do 3 f_equal.
    apply imap_ext. intros i y _. simpl. f_equal. lia.
Qed.

Lemma extract_text_from_pdf_run (self : DocumentProcessor) (file_path : string)
    (w : World) :
  extract_text_from_pdf self file_path w
  = (match files w !! file_path with
     | None => inl (OtherException "FileNotFoundError" file_path)
     | Some file =>
         match os_fault w (EvOpen file_path "rb") with
         | Some e => inl e
         | None =>
             match PdfReader file with
             | inl e => inl e
             | inr pages => inr (String.concat "" (imap page_block pages))
             end
         end
     end,
     log (EvOpen file_path "rb") w).
Proof.
  unfold extract_text_from_pdf, open_rb. rewrite bind_run, extern_run.
  destruct (files w !! file_path) as [file|]; [|reflexivity].
  unfold fault_or. destruct (os_fault w _); [reflexivity|].
  rewrite bind_run. unfold lift_exn.
  destruct (PdfReader file) as [e|pages]; [reflexivity|].
  unfold enumerate. rewrite extract_fold. reflexivity.
Qed.

(** X1: [extract_text_from_pdf] opens the file once and changes nothing
    else.  It fails when the file is missing, cannot be opened, or pypdf
    fails; otherwise the text is the concatenation, in page order, of one
    block per page: nothing for a page without text, and the marker
    [--- Page N ---] with the page's text otherwise, where [N] is the
    1-based position of the page (pages without text are counted). *)
Theorem extract_text_from_pdf_pages (self : DocumentProcessor) (file_path : string)
    (w : World) :
  (extract_text_from_pdf self file_path w).2 = log (EvOpen file_path "rb") w
  ∧ match files w !! file_path with
    | None =>
        (extract_text_from_pdf self file_path w).1
        = inl (OtherException "FileNotFoundError" file_path)
    | Some file =>
        match os_fault w (EvOpen file_path "rb"), PdfReader file with
        | Some e, _ => (extract_text_from_pdf self file_path w).1 = inl e
        | None, inl e => (extract_text_from_pdf self file_path w).1 = inl e
        | None, inr pages =>
            (extract_text_from_pdf self file_path w).1
            = inr (String.concat "" (imap page_block pages))
        end
    end.
Proof.
  rewrite extract_text_from_pdf_run. split; [reflexivity|].
  destruct (files w !! file_path) as [file|]; [|reflexivity].
  destruct (os_fault w _); [reflexivity|].
  by destruct (PdfReader file).
Qed.

(** X3: every chunk [process_document] returns is tagged with the
    document identifier, the file name and the file path of the call,
    besides its index and the total; its metadata has exactly these five
    keys, so it never has a ["content"] key. *)
Theorem process_document_tags (self : DocumentProcessor)
    (file_path document_id filename : string) (w : World)
    (chunks : list Chunk) (i : nat) (c : Chunk) :
  (process_document self file_path document_id filename w).1 = inr chunks →
  chunks !! i = Some c →
  metadata c
  = <["total_chunks" := VInt (Z.of_nat (length chunks))]>
      (<["chunk_index" := VInt (Z.of_nat i)]>
         (<["file_path" := VStr file_path]>
            (<["filename" := VStr filename]>
               (<["document_id" := VStr document_id]> ∅))))
  ∧ metadata c !! "document_id" = Some (VStr document_id)
  ∧ metadata c !! "filename" = Some (VStr filename)
  ∧ metadata c !! "file_path" = Some (VStr file_path)
  ∧ metadata c !! "content" = None.
Proof.
  intros Hrun Hc.
  destruct (process_document self file_path document_id filename w)
    as [r w'] eqn:Hp. simpl in Hrun. subst r.
  unfold process_document in Hp.
  apply bind_inr in Hp as (text & w1 & _ & Hp). injection Hp as <- _.
  rewrite chunk_text_length.
  rewrite chunk_text_imap, list_lookup_imap in Hc.
  destruct (split_text (text_splitter self) text !! i) as [piece|];
    [|discriminate].
  injection Hc as <-. simpl. split; [reflexivity|].
  split_and!; by simplify_map_eq.
Qed.


(** ** The collection and the index calls ([vector_store.py]) *)

Lemma client_get_collections_run w :
  client_get_collections w =
  (match qdrant_fault w EvGetCollections with
   | Some e => inl e
   | None => inr (elements (dom (collections w)))
   end,
   log EvGetCollections w).
Proof.
  unfold client_get_collections. rewrite extern_run. unfold fault_or.
  by destruct (qdrant_fault w EvGetCollections).
Qed.

Lemma elem_of_collection_names name w :
  name ∈ elements (dom (collections w)) ↔ is_Some (collections w !! name).
Proof. by rewrite elem_of_elements, elem_of_dom. Qed.

Lemma VectorStore_init_run name model w :
  VectorStore_init name model w =
  match qdrant_fault w EvGetCollections with
  | Some e => (inl e, log EvGetCollections w)
  | None =>
      match collections w !! name with
      | Some _ => (inr (mkVectorStore name model 1536), log EvGetCollections w)
      | None =>
          match qdrant_fault (log EvGetCollections w) (EvCreateCollection name) with
          | Some e =>
              (inl e, log (EvCreateCollection name) (log EvGetCollections w))
          | None =>
              (inr (mkVectorStore name model 1536),
               set_collections (<[name := []]> (collections w))
                 (log (EvCreateCollection name) (log EvGetCollections w)))
          end
      end
  end.
Proof.
  unfold VectorStore_init, _ensure_collection_exists.
  rewrite !bind_run, client_get_collections_run.
  destruct (qdrant_fault w EvGetCollections); [reflexivity|].
  simpl. case_decide as Hin; rewrite elem_of_collection_names in Hin.
  - destruct Hin as [pts ->]. reflexivity.
  - apply eq_None_not_Some in Hin. rewrite Hin.
    unfold client_create_collection. rewrite extern_run. simpl. rewrite Hin.
    unfold fault_or. by destruct (qdrant_fault _ _).
Qed.

(** X4: constructing a [VectorStore] creates the collection only when it
    is missing.  A collection that exists is left as it is, with all its
    points, after a single [get_collections] call; a missing one is created
    empty; after a successful construction the collection exists, so a
    second construction changes nothing; and a failed construction leaves
    the index as it was.  The files are never touched. *)
Theorem VectorStore_init_idempotent (name model : string) (w : World) :
  let out := VectorStore_init name model w in
  files out.2 = files w
  ∧ (∀ self, out.1 = inr self →
       self = mkVectorStore name model 1536
       ∧ is_Some (collections out.2 !! name)
       ∧ collections (VectorStore_init name model out.2).2 = collections out.2)
  ∧ (is_Some (collections w !! name) →
       collections out.2 = collections w
       ∧ new_events w out.2 = [EvGetCollections])
  ∧ (collections w !! name = None →
       ∀ self, out.1 = inr self →
         collections out.2 = <[name := []]> (collections w))
  ∧ (∀ e, out.1 = inl e → collections out.2 = collections w).
Proof.
  assert (∀ w0, is_Some (collections w0 !! name) →
            collections (VectorStore_init name model w0).2 = collections w0
            ∧ new_events w0 (VectorStore_init name model w0).2 = [EvGetCollections])
    as Hexists.
  { intros w0 [pts Hpts]. rewrite VectorStore_init_run, Hpts.
    destruct (qdrant_fault w0 EvGetCollections); split; try reflexivity;
      by apply new_events_app. }
  intros out. subst out. split_and!.
  - rewrite VectorStore_init_run.
    destruct (qdrant_fault w EvGetCollections); [reflexivity|].
    destruct (collections w !! name); [reflexivity|].
    by destruct (qdrant_fault _ _).
  - intros self Hself.
    assert (self = mkVectorStore name model 1536
            ∧ is_Some (collections (VectorStore_init name model w).2 !! name))
      as [-> Hsome].
    { revert Hself. rewrite VectorStore_init_run.
      destruct (qdrant_fault w EvGetCollections); [discriminate|].
      destruct (collections w !! name) as [pts|] eqn:Hc.
      - intros [= <-]. simpl. rewrite Hc. by eauto.
      - destruct (qdrant_fault _ _); [discriminate|].
        intros [= <-]. simpl. rewrite lookup_insert_eq. by eauto. }
    split_and!; [done|done|]. by apply Hexists.
  - apply Hexists.
  - intros Hnone self. rewrite VectorStore_init_run, Hnone.
    destruct (qdrant_fault w EvGetCollections); [discriminate|].
    by destruct (qdrant_fault _ _).
  - intros e. rewrite VectorStore_init_run.
    destruct (qdrant_fault w EvGetCollections); [done|].
    destruct (collections w !! name); [discriminate|].
    by destruct (qdrant_fault _ _).
Qed.

Lemma health_check_run (self : VectorStore) (w : World) :
  health_check self w
  = (inr (bool_decide (qdrant_fault w EvGetCollections = None)),
     log EvGetCollections w).
Proof.
  unfold health_check, try_except. rewrite bind_run, client_get_collections_run.
  by destruct (qdrant_fault w EvGetCollections).
Qed.

(** X11: [VectorStore.health_check] never raises: it asks for the list of
    collections once and answers [True] exactly when that call did not
    fail; it changes neither the index nor the files. *)
Theorem health_check_never_raises (self : VectorStore) (w : World) :
  ∃ connected,
    health_check self w = (inr connected, log EvGetCollections w)
    ∧ (connected = true ↔ qdrant_fault w EvGetCollections = None)
    ∧ read_only w (health_check self w).2.
Proof.
  rewrite health_check_run. eexists. split; [reflexivity|].
  split; [apply bool_decide_eq_true|done].
Qed.

(** X9: [search] only reads: files, index and identifier counter are as
    before whatever the outcome.  The index is queried only after the
    query has been embedded: when the embedding call fails or returns no
    embedding, no search request is sent. *)
Theorem search_read_only (self : VectorStore) (query : string) (top_k : Z)
    (w : World) :
  let out := search self query top_k w in
  read_only w out.2
  ∧ match embeddings_create w (vs_embedding_model self) query with
    | inr (v :: _) =>
        new_events w out.2
        = [EvEmbed (vs_embedding_model self) query;
           EvSearch (collection_name self) v top_k]
    | _ =>
        new_events w out.2 = [EvEmbed (vs_embedding_model self) query]
        ∧ ∃ e, out.1 = inl e
    end.
Proof.
  intros out. subst out. rewrite search_run.
  destruct (embeddings_create w _ _) as [e|[|v vs]]; simpl.
  - split; [done|]. split; [by apply new_events_app|by eexists].
  - split; [done|]. split; [by apply new_events_app|by eexists].
  - destruct (collections w !! collection_name self);
      [destruct (qdrant_fault _ _)|]; (split; [done|]);
      apply new_events_app; simpl; by rewrite <- app_assoc.
Qed.


#[local] Instance same_collections_pre : PreOrder same_collections.
Proof.
  split; [intros w; reflexivity|].
  intros w1 w2 w3 H1 H2. unfold same_collections in *. congruence.
Qed.

Lemma add_documents_points_same_collections (self : VectorStore) chunks points
    point_ids :
  step_inv same_collections (add_documents_points self chunks points point_ids).
Proof.
  revert points point_ids. induction chunks as [|chunk rest IH];
    intros points point_ids; simpl.
  - apply step_inv_ret, _.
  - apply step_inv_bind; [apply _| |].
    + unfold generate_embedding. apply step_inv_bind; [apply _| |].
      * apply step_inv_extern; by intros.
      * intros [|v vs]; [apply step_inv_raise|apply step_inv_ret]; apply _.
    + intros v. apply step_inv_bind; [apply _| |intros id; apply IH].
      by intros w r w' [= _ <-].
Qed.

Lemma emits_log (P : Event → Prop) ev w w' :
  trace w' = (trace w ++ [ev])%list → P ev → emits P w w'.
Proof. intros Ht HP. exists [ev]. split; [exact Ht|by constructor]. Qed.

Lemma add_documents_points_emits (self : VectorStore) chunks points point_ids :
  step_inv (emits embed_or_uuid)
    (add_documents_points self chunks points point_ids).
Proof.
  revert points point_ids. induction chunks as [|chunk rest IH];
    intros points point_ids; simpl.
  - apply step_inv_ret, _.
  - apply step_inv_bind; [apply _| |].
    + unfold generate_embedding. apply step_inv_bind; [apply _| |].
      * apply step_inv_extern; intros; (eapply emits_log; [reflexivity|done]).
      * intros [|v vs]; [apply step_inv_raise|apply step_inv_ret]; apply _.
    + intros v. apply step_inv_bind; [apply _| |intros id; apply IH].
      intros w r w' [= _ <-].
      eapply emits_log; [reflexivity|done].
Qed.

Lemma upsert_batches_inl (self : VectorStore) batches w e w' :
  upsert_batches self batches w = (inl e, w') →
  ∃ done failed rest,
    batches = (done ++ failed :: rest)%list
    ∧ collections w'
      = alter (upsert_points (concat done)) (collection_name self) (collections w)
    ∧ trace w'
      = (trace w ++ (EvUpsert (collection_name self) <$> (done ++ [failed])))%list.
Proof.
  revert w. induction batches as [|batch rest IH]; intros w; simpl; [discriminate|].
  rewrite bind_run, client_upsert_run.
  destruct (collections w !! collection_name self) eqn:Hc.
  - destruct (qdrant_fault w _).
    + intros [= _ <-]. exists [], batch, rest. split_and!; try done.
      simpl. symmetry. by apply alter_id.
    + intros H. apply IH in H as (done & failed & rest' & -> & Hcoll & Ht).
      exists (batch :: done), failed, rest'. simpl in *. split_and!; [done| |].
      * rewrite Hcoll, alter_alter_eq. apply alter_ext. intros pts _. simpl.
        by rewrite upsert_points_app.
      * by rewrite Ht, <- app_assoc.
  - intros [= _ <-]. exists [], batch, rest. split_and!; try done.
    simpl. symmetry. by apply alter_id.
Qed.

(** X5: when [add_documents] fails, the files are untouched and either
    nothing at all was sent to the index (an embedding failed: all
    embeddings are computed before the first write), or the points of all
    chunks were built and exactly the batches before the failing one have
    been written: earlier batches are not rolled back. *)
Theorem add_documents_failure (self : VectorStore) (chunks : list Chunk)
    (w : World) (e : PyExn) :
  (add_documents self chunks w).1 = inl e →
  files (add_documents self chunks w).2 = files w
  ∧ ((collections (add_documents self chunks w).2 = collections w
      ∧ Forall embed_or_uuid (new_events w (add_documents self chunks w).2))
     ∨ ∃ points done failed rest evs,
         length points = length chunks
         ∧ slices batch_size points = (done ++ failed :: rest)%list
         ∧ collections (add_documents self chunks w).2
           = alter (upsert_points (concat done)) (collection_name self)
               (collections w)
         ∧ new_events w (add_documents self chunks w).2
           = (evs ++ (EvUpsert (collection_name self) <$> (done ++ [failed])))%list
         ∧ Forall embed_or_uuid evs).
Proof.
  intros Hrun.
  destruct (add_documents self chunks w) as [r w'] eqn:Hadd.
  simpl in Hrun. subst r. simpl.
  split; [by apply add_documents_same_files in Hadd|].
  revert Hadd. unfold add_documents. rewrite bind_run.
  destruct (add_documents_points self chunks [] [] w) as [[e1|[points ids]] w1] eqn:H1.
  - intros [= _ <-]. left. split.
    + by apply add_documents_points_same_collections in H1.
    + eapply emits_new_events, add_documents_points_emits, H1.
  - rewrite bind_run.
    destruct (upsert_batches self (slices batch_size points) w1)
      as [[e2|[]] w2] eqn:H2; [|discriminate].
    intros [= _ <-]. right.
    apply add_documents_points_inr in H1
      as (new & evs & -> & _ & _ & Hpay & Hc & _ & _ & Ht & He).
    apply upsert_batches_inl in H2 as (done & failed & rest & Hsl & Hc2 & Ht2).
    exists new, done, failed, rest, evs. simpl in *. split_and!; try done.
    + symmetry. eapply Forall2_length, Hpay.
    + by rewrite Hc2, Hc.
    + apply new_events_app. by rewrite Ht2, Ht, <- app_assoc.
Qed.


Lemma slices_aux_length {A} fuel n (l : list A) :
  (0 < n)%nat → (length l ≤ fuel)%nat →
  length (slices_aux fuel n l) = ((length l + n - 1) / n)%nat.
Proof.
  intros Hn. revert l. induction fuel as [|fuel IH]; intros l Hl.
  - destruct l; [|simpl in Hl; lia]. simpl.
    symmetry. apply Nat.div_small. lia.
  - destruct l as [|x l].
    { simpl. symmetry. apply Nat.div_small. lia. }
    change (S (length (slices_aux fuel n (drop n (x :: l))))
            = ((length (x :: l) + n - 1) / n)%nat).
    rewrite IH by (rewrite length_drop; simpl in *; lia).
    rewrite length_drop.
    replace (length (x :: l) + n - 1)%nat with (length l + 1 * n)%nat
      by (simpl; lia).
    rewrite Nat.div_add by lia.
    destruct (decide (n ≤ length (x :: l))%nat) as [Hle|Hgt].
    + replace (length (x :: l) - n + n - 1)%nat with (length l)
        by (simpl in *; lia). lia.
    + replace (length (x :: l) - n + n - 1)%nat with (n - 1)%nat
        by (simpl in *; lia).
      rewrite !Nat.div_small by (simpl in *; lia). lia.
Qed.

(** X7: when [add_documents] returns, it has made exactly
    ceil(number of chunks / 100) write requests to the index, all after the
    embedding and identifier calls. *)
Theorem add_documents_round_trips (self : VectorStore) (chunks : list Chunk)
    (w : World) (ids : list string) :
  (add_documents self chunks w).1 = inr ids →
  ∃ evs batches,
    new_events w (add_documents self chunks w).2
    = (evs ++ (EvUpsert (collection_name self) <$> batches))%list
    ∧ Forall embed_or_uuid evs
    ∧ length batches = ((length chunks + 99) / 100)%nat.
Proof.
  intros Hrun.
  destruct (add_documents self chunks w) as [r w'] eqn:Hadd.
  simpl in Hrun. subst r.
  apply add_documents_inr in Hadd
    as (points & evs & _ & _ & Hpay & _ & _ & _ & Ht & He).
  exists evs, (slices batch_size points). split_and!; [|done|].
  - by apply new_events_app.
  - unfold slices. rewrite slices_aux_length by (unfold batch_size; lia).
    rewrite <- (Forall2_length _ _ _ Hpay). unfold batch_size.
    f_equal. lia.
Qed.

(** ** From storing to searching *)

Lemma upsert_point_elem p q pts :
  p ∈ upsert_point q pts → p = q ∨ p ∈ pts.
Proof.
  induction pts as [|r pts IH]; simpl.
  - rewrite list_elem_of_singleton. auto.
  - case_decide as Hid; rewrite !elem_of_cons; [tauto|].
    intros [->|Hin]; [tauto|]. apply IH in Hin. tauto.
Qed.

Lemma upsert_points_elem p batch pts :
  p ∈ upsert_points batch pts → p ∈ batch ∨ p ∈ pts.
Proof.
  unfold upsert_points. revert pts.
  induction batch as [|q batch IH]; intros pts; simpl; [auto|].
  intros H. apply IH in H as [H|H].
  - left. by right.
  - apply upsert_point_elem in H as [->|H]; [left; by left|by right].
Qed.

Lemma chunk_payload_content (c : Chunk) :
  chunk_payload c !! "content"
  = Some (default (VStr (content c)) (metadata c !! "content")).
Proof.
  unfold chunk_payload. rewrite lookup_union.
  destruct (metadata c !! "content"); by rewrite lookup_singleton_eq.
Qed.

Lemma chunk_payload_other (c : Chunk) (k : string) :
  k ≠ "content" → chunk_payload c !! k = metadata c !! k.
Proof.
  intros Hk. unfold chunk_payload.
  rewrite lookup_union, lookup_singleton_ne by done.
  by destruct (metadata c !! k).
Qed.

Lemma chunk_payload_delete (c : Chunk) :
  delete "content" (chunk_payload c) = delete "content" (metadata c).
Proof.
  apply map_eq. intros k. destruct (decide (k = "content")) as [->|Hk].
  - by rewrite !lookup_delete_eq.
  - by rewrite !lookup_delete_ne, chunk_payload_other.
Qed.

(** X8: what was stored comes back.  After [add_documents] has stored
    [chunks], every match of a search is built either from a point that was
    in the collection before, or from one of the chunks: then its metadata
    is that chunk's metadata without any ["content"] key and its content is
    the chunk's content, unless the chunk's metadata had a ["content"] entry
    of its own, which then takes the place of the content. *)
Theorem add_documents_then_search (self : VectorStore) (chunks : list Chunk)
    (w : World) (ids : list string) (query : string) (top_k : Z)
    (docs : list Document) (doc : Document) :
  (add_documents self chunks w).1 = inr ids →
  (search self query top_k (add_documents self chunks w).2).1 = inr docs →
  doc ∈ docs →
  (∃ pts p,
      collections w !! collection_name self = Some pts
      ∧ p ∈ pts
      ∧ doc_metadata doc = delete "content" (payload p)
      ∧ doc_content doc = default (VStr "") (payload p !! "content"))
  ∨ (∃ c,
       c ∈ chunks
       ∧ doc_metadata doc = delete "content" (metadata c)
       ∧ doc_content doc = default (VStr (content c)) (metadata c !! "content")).
Proof.
  intros Hrun Hsearch Hdoc.
  destruct (add_documents self chunks w) as [r w1] eqn:Hadd.
  simpl in *. subst r.
  destruct (search self query top_k w1) as [r w2] eqn:Hs. simpl in *. subst r.
  apply add_documents_inr in Hadd
    as (points & evs & _ & _ & Hpay & Hc & _ & _ & _ & _).
  apply search_inr in Hs as (v & pts1 & Hc1 & -> & _).
  apply list_elem_of_fmap in Hdoc as (hit & -> & Hhit).
  apply search_points_elem in Hhit as (p & Hp & ->).
  rewrite Hc, lookup_alter_eq in Hc1.
  destruct (collections w !! collection_name self) as [pts|] eqn:Hw;
    [|discriminate].
  injection Hc1 as <-.
  unfold format_result, dict_get. simpl. rewrite filter_content_delete.
  apply upsert_points_elem in Hp as [Hp|Hp].
  - right. apply list_elem_of_lookup in Hp as [i Hi].
    destruct (Forall2_lookup_r _ _ _ _ _ Hpay Hi) as (c & Hci & Hpc).
    exists c. split; [by eapply list_elem_of_lookup_2|].
    by rewrite Hpc, chunk_payload_delete, chunk_payload_content.
  - left. by exists pts, p.
Qed.


Lemma upsert_point_fresh p pts :
  point_id p ∉ (point_id <$> pts) → upsert_point p pts = (pts ++ [p])%list.
Proof.
  induction pts as [|q pts IH]; simpl; [done|].
  rewrite not_elem_of_cons. intros [Hne Hnin].
  rewrite decide_False by congruence. by rewrite IH.
Qed.

Lemma upsert_points_fresh new pts :
  NoDup (point_id <$> new) →
  (∀ q, q ∈ pts → point_id q ∉ (point_id <$> new)) →
  upsert_points new pts = (pts ++ new)%list.
Proof.
  unfold upsert_points. revert pts.
  induction new as [|p new IH]; intros pts Hnd Hfresh; simpl.
  - by rewrite app_nil_r.
  - rewrite fmap_cons in Hnd. apply NoDup_cons in Hnd as [Hp Hnd].
    rewrite upsert_point_fresh.
    + rewrite IH; [by rewrite <- app_assoc|done|].
      intros q Hq. apply elem_of_app in Hq as [Hq|Hq].
      * specialize (Hfresh q Hq). rewrite fmap_cons, not_elem_of_cons in Hfresh.
        tauto.
      * apply list_elem_of_singleton in Hq. by subst q.
    + intros Hin. apply list_elem_of_fmap in Hin as (q & Heq & Hq).
      apply (Hfresh q Hq). rewrite fmap_cons, <- Heq. by left.
Qed.

Lemma issued_ids_fresh (self : VectorStore) w pts q n :
  Inj (=) (=) uuid4 →
  store_ids_issued self w →
  collections w !! collection_name self = Some pts →
  q ∈ pts →
  point_id q ∉ (uuid4 <$> seq (uuid_count w) n).
Proof.
  intros Hinj Hissued Hc Hq Hin.
  destruct (Hissued pts q Hc Hq) as (k & Hk & Hqk).
  rewrite Hqk in Hin. apply list_elem_of_fmap in Hin as (j & Hj & Hjin).
  apply Hinj in Hj. subst j. apply elem_of_seq in Hjin. lia.
Qed.

(** X10: storing never disturbs what is there.  As long as [uuid4] does
    not repeat itself, [add_documents] appends one point per chunk, in the
    order of the chunks and with the chunk's payload, after the points the
    collection already holds; those stay as they are and in their order,
    and every other collection is untouched. *)
Theorem add_documents_appends (self : VectorStore) (chunks : list Chunk)
    (w : World) (pts : list PointStruct) (ids : list string) :
  Inj (=) (=) uuid4 →
  store_ids_issued self w →
  collections w !! collection_name self = Some pts →
  (add_documents self chunks w).1 = inr ids →
  ∃ points,
    point_id <$> points = ids
    ∧ Forall2 (λ chunk p, payload p = chunk_payload chunk) chunks points
    ∧ collections (add_documents self chunks w).2
      = <[collection_name self := (pts ++ points)%list]> (collections w).
Proof.
  intros Hinj Hissued Hc Hrun.
  destruct (add_documents self chunks w) as [r w1] eqn:Hadd.
  simpl in *. subst r.
  apply add_documents_inr in Hadd
    as (points & evs & Hpts & Hids & Hpay & Hc1 & _ & _ & _ & _).
  exists points. split; [exact Hpts|]. split; [exact Hpay|].
  rewrite Hc1, (alter_lookup_insert _ _ _ _ Hc). f_equal.
  apply upsert_points_fresh.
  - rewrite Hpts, Hids. apply NoDup_fmap_2; [done|apply NoDup_seq].
  - intros q Hq. rewrite Hpts, Hids. by eapply issued_ids_fresh.
Qed.


(** ** Answer synthesis ([rag_service.py]) *)

(** X12: the context handed to the model consists of one block per
    retrieved document, in order, joined by a line of three dashes: the
    block of the document at position [i] is labelled [Source i+1] with the
    document's file name, or [Unknown] when its metadata has none, followed
    by its content.  Without documents the context is empty. *)
Theorem _build_context_blocks (documents : list Document) :
  _build_context documents
  = str_join (nl +:+ "---" +:+ nl) (imap source_block documents)
  ∧ _build_context [] = "".
Proof.
  split; [|reflexivity].
  unfold _build_context, enumerate. f_equal.
  etransitivity; [apply (foldl_enumerate_append source_block)|].
  reflexivity.
Qed.

(** X13: [generate_answer] calls the chat model exactly once, with the
    fixed system message and the prompt built from the query and the
    documents.  It fails with the exception of that call, or with an
    [IndexError] when the response has no choice; otherwise it returns the
    first choice as the answer, the documents it was given, unchanged and
    in order, as the sources, and the time between its two clock readings. *)
Theorem generate_answer_result (self : RAGService) (query : string)
    (context_documents : list Document) (w : World) :
  let prompt := _create_prompt query (_build_context context_documents) in
  generate_answer self query context_documents w
  = (match chat_completions_create w (model self) system_message prompt with
     | inl e => inl e
     | inr [] => inl (OtherException "IndexError" "list index out of range")
     | inr (message :: _) =>
         inr (mkAnswer message
                (time_time (log (EvChat (model self) prompt) w) - time_time w)%Q
                context_documents)
     end,
     log (EvChat (model self) prompt) w).
Proof.
  intros prompt. subst prompt.
  unfold generate_answer, time_now. rewrite bind_run. simpl.
  rewrite bind_run, extern_run.
  destruct (chat_completions_create _ _ _ _) as [e|[|a l]]; reflexivity.
Qed.

(** ** Event dispatch and failure reports ([inngest_service.py]) *)

Lemma send_document_event_run (document_id file_path filename : string)
    (w : World) :
  send_document_event document_id file_path filename w
  = (inr match inngest_send w (mkEventData document_id file_path filename) with
         | inr _ => SendOk
         | inl e => SendFailed (exn_str e)
         end,
     log (EvSend document_id file_path filename) w).
Proof.
  unfold send_document_event, try_except. rewrite bind_run, extern_run.
  by destruct (inngest_send w _) as [e|[]].
Qed.

(** X14: [send_document_event] never raises: it sends one event carrying
    the three fields and changes nothing else; it reports success exactly
    when the send did not fail, and otherwise the text of the exception of
    the send. *)
Theorem send_document_event_never_raises (document_id file_path filename : string)
    (w : World) :
  ∃ result,
    send_document_event document_id file_path filename w
    = (inr result, log (EvSend document_id file_path filename) w)
    ∧ (result = SendOk
       ↔ ∃ u, inngest_send w (mkEventData document_id file_path filename) = inr u)
    ∧ (∀ error, result = SendFailed error →
         ∃ e, inngest_send w (mkEventData document_id file_path filename) = inl e
              ∧ error = exn_str e).
Proof.
  rewrite send_document_event_run. eexists. split; [reflexivity|].
  destruct (inngest_send w _) as [e|u]; split.
  - split; [discriminate|]. by intros [? ?].
  - intros error [= <-]. by exists e.
  - split; [by eexists|done].
  - discriminate.
Qed.

(** X15: a failed ingestion reports the text of the exception of the first
    stage that failed, and stops there: the world is the one that stage
    left, no later stage is run. *)
Theorem process_document_function_reports (event_data : EventData) (w : World) :
  let run := process_document_function event_data w in
  let failed e := inr (ProcessFailed (ed_document_id event_data) (exn_str e)) in
  (∀ e, DocumentProcessor_init (chunk_size settings) (chunk_overlap settings)
          = inl e →
        run = (failed e, w))
  ∧ ∀ processor,
      DocumentProcessor_init (chunk_size settings) (chunk_overlap settings)
        = inr processor →
      (∀ e w1,
          process_document processor (ed_file_path event_data)
            (ed_document_id event_data) (ed_filename event_data) w
          = (inl e, w1) →
          run = (failed e, w1))
      ∧ ∀ chunks w1,
          process_document processor (ed_file_path event_data)
            (ed_document_id event_data) (ed_filename event_data) w
          = (inr chunks, w1) →
          (∀ e w2,
              VectorStore_init (qdrant_collection_name settings)
                (embedding_model settings) w1 = (inl e, w2) →
              run = (failed e, w2))
          ∧ ∀ vs w2,
              VectorStore_init (qdrant_collection_name settings)
                (embedding_model settings) w1 = (inr vs, w2) →
              (∀ e w3, add_documents vs chunks w2 = (inl e, w3) →
                       run = (failed e, w3))
              ∧ ∀ ids w3,
                  add_documents vs chunks w2 = (inr ids, w3) →
                  ∀ e w4,
                    remove_if_exists (ed_file_path event_data) w3 = (inl e, w4) →
                    run = (failed e, w4).
Proof.
  intros run failed.
  assert (run = process_document_function event_data w) as Hrun by reflexivity.
  clearbody run. subst failed. simpl.
  unfold process_document_function, try_except, step_run, lift_exn in Hrun.
  rewrite bind_run in Hrun. split.
  { intros e He. by rewrite He in Hrun. }
  intros processor Hp. rewrite Hp, bind_run in Hrun. split.
  { intros e w1 H1. by rewrite H1 in Hrun. }
  intros chunks w1 H1. rewrite H1, bind_run in Hrun. split.
  { intros e w2 H2. by rewrite H2 in Hrun. }
  intros vs w2 H2. rewrite H2, bind_run in Hrun. split.
  { intros e w3 H3. by rewrite H3 in Hrun. }
  intros ids w3 H3 e w4 H4. by rewrite H3, bind_run, H4 in Hrun.
Qed.

(** ** The endpoints ([api/routes.py]) *)

(** X16: the [/health] endpoint never raises: it reports [healthy] with
    [qdrant_connected = True] exactly when the list of collections could be
    fetched, and [degraded] with [False] otherwise. *)
Theorem routes_health_check_status (w : World) :
  routes_health_check w
  = (inr (mkHealthResponse
            (if bool_decide (qdrant_fault w EvGetCollections = None)
             then "healthy" else "degraded")
            (bool_decide (qdrant_fault w EvGetCollections = None))
            (time_time (log EvGetCollections w))),
     log EvGetCollections w).
Proof.
  unfold routes_health_check. rewrite bind_run, health_check_run.
  reflexivity.
Qed.


Lemma os_makedirs_run path w :
  os_makedirs path w
  = (match os_fault w (EvMakedirs path) with Some e => inl e | None => inr tt end,
     log (EvMakedirs path) w).
Proof.
  unfold os_makedirs. rewrite extern_run. unfold fault_or.
  by destruct (os_fault w _).
Qed.

Lemma open_wb_run path w :
  open_wb path w
  = match os_fault w (EvOpen path "wb") with
    | Some e => (inl e, log (EvOpen path "wb") w)
    | None => (inr tt, set_files (<[path := ""]> (files w)) (log (EvOpen path "wb") w))
    end.
Proof.
  unfold open_wb. rewrite extern_run. unfold fault_or.
  by destruct (os_fault w _).
Qed.

Lemma file_write_run path data w :
  file_write path data w
  = match os_fault w (EvWrite path) with
    | Some e => (inl e, log (EvWrite path) w)
    | None => (inr tt, set_files (<[path := data]> (files w)) (log (EvWrite path) w))
    end.
Proof.
  unfold file_write. rewrite extern_run. unfold fault_or.
  by destruct (os_fault w _).
Qed.

(** X17: an upload of a [.pdf] file whose event can be sent is only
    saved and announced: the response says [processing] and carries the
    new identifier, the uploaded bytes are in the file
    [uploads/<identifier>_<file name>], the event names that identifier,
    that path and the file name, and nothing is extracted, embedded,
    stored or removed. *)
Theorem upload_document_enqueues (file : UploadFile) (w : World) :
  endswith (filename file) ".pdf" = true →
  (∀ w0 ev, os_fault w0 ev = None) →
  (∀ w0 data, inngest_send w0 data = inr tt) →
  let document_id := uuid4 (uuid_count w) in
  let file_path := "uploads/" +:+ document_id +:+ "_" +:+ filename file in
  (upload_document file w).1
  = inr (mkUploadResponse document_id (filename file) "processing"
           "Document uploaded successfully and is being processed")
  ∧ files (upload_document file w).2 = <[file_path := file_bytes file]> (files w)
  ∧ collections (upload_document file w).2 = collections w
  ∧ new_events w (upload_document file w).2
    = [EvUuid document_id; EvMakedirs "uploads"; EvOpen file_path "wb";
       EvWrite file_path; EvSend document_id file_path (filename file)].
Proof.
  intros Hpdf Hos Hsend document_id file_path.
  destruct (upload_document file w) as [r w'] eqn:Hrun. revert Hrun.
  unfold upload_document. rewrite Hpdf. simpl. unfold try_except.
  rewrite bind_run. unfold uuid4_str at 1.
  rewrite bind_run, os_makedirs_run, Hos.
  rewrite bind_run, open_wb_run, Hos.
  rewrite bind_run, file_write_run, Hos.
  rewrite bind_run, send_document_event_run, Hsend.
  intros [= <- <-]. simpl. split_and!; try reflexivity.
  - apply insert_insert_eq.
  - apply new_events_app. simpl. by rewrite <- !app_assoc.
Qed.

(** X18: [upload_document] raises nothing but [HTTPException]s.  A file
    name that does not end in [.pdf] gives status 400.  Otherwise the
    stages run in order (directory, open, write, send, and after a failed
    send: processor, processing, storing, cleanup); the first one that
    fails stops the upload, which raises status 500 with
    ["Error processing document: "] followed by the text of that stage's
    own exception, in the world that stage left.  A failed send is the one
    failure that is not reported: it switches to synchronous processing.
    When no stage fails the response says [processing] after a send that
    succeeded and [completed] after synchronous processing. *)
Theorem upload_document_errors (file : UploadFile) (w : World) :
  let run := upload_document file w in
  let refused e :=
    inl (HTTPException 500 ("Error processing document: " +:+ exn_str e)) in
  let document_id := uuid4 (uuid_count w) in
  let file_path := "uploads/" +:+ document_id +:+ "_" +:+ filename file in
  let w0 := set_uuid_count (S (uuid_count w)) (log (EvUuid document_id) w) in
  (∀ e, run.1 = inl e → is_HTTPException e = true)
  ∧ (endswith (filename file) ".pdf" = false →
     run = (inl (HTTPException 400 "Only PDF files are supported"), w))
  ∧ (endswith (filename file) ".pdf" = true →
     (∀ e w1, os_makedirs "uploads" w0 = (inl e, w1) → run = (refused e, w1))
     ∧ ∀ w1, os_makedirs "uploads" w0 = (inr tt, w1) →
       (∀ e w2, open_wb file_path w1 = (inl e, w2) → run = (refused e, w2))
       ∧ ∀ w2, open_wb file_path w1 = (inr tt, w2) →
         (∀ e w3, file_write file_path (file_bytes file) w2 = (inl e, w3) →
                  run = (refused e, w3))
         ∧ ∀ w3, file_write file_path (file_bytes file) w2 = (inr tt, w3) →
           let w4 := log (EvSend document_id file_path (filename file)) w3 in
           (∀ u, inngest_send w3 (mkEventData document_id file_path (filename file))
                 = inr u →
                 run = (inr (mkUploadResponse document_id (filename file)
                               "processing"
                               "Document uploaded successfully and is being processed"),
                        w4))
           ∧ ∀ send_error,
               inngest_send w3 (mkEventData document_id file_path (filename file))
               = inl send_error →
               (∀ e, DocumentProcessor_init (chunk_size settings)
                       (chunk_overlap settings) = inl e →
                     run = (refused e, w4))
               ∧ ∀ processor,
                   DocumentProcessor_init (chunk_size settings)
                     (chunk_overlap settings) = inr processor →
                   (∀ e w5,
                       process_document processor file_path document_id
                         (filename file) w4 = (inl e, w5) →
                       run = (refused e, w5))
                   ∧ ∀ chunks w5,
                       process_document processor file_path document_id
                         (filename file) w4 = (inr chunks, w5) →
                       (∀ e w6, add_documents vector_store chunks w5 = (inl e, w6) →
                                run = (refused e, w6))
                       ∧ ∀ ids w6,
                           add_documents vector_store chunks w5 = (inr ids, w6) →
                           (∀ e w7, remove_if_exists file_path w6 = (inl e, w7) →
                                    run = (refused e, w7))
                           ∧ ∀ w7,
                               remove_if_exists file_path w6 = (inr tt, w7) →
                               run = (inr (mkUploadResponse document_id
                                             (filename file) "completed"
                                             "Document processed successfully (synchronous mode)"),
                                      w7)).
Proof.
  intros run refused document_id file_path w0.
  assert (run = upload_document file w) as Hrun by reflexivity.
  clearbody run. split; [|split].
  - subst run. intros e. unfold upload_document.
    destruct (endswith (filename file) ".pdf"); simpl.
    + unfold try_except.
      match goal with
      | |- context [match ?body with _ => _ end] => destruct body as [[cause|a] w1]
      end; simpl; [|discriminate].
      by intros [= <-].
    + by intros [= <-].
  - intros Hpdf. subst run. unfold upload_document. by rewrite Hpdf.
  - intros Hpdf. unfold upload_document in Hrun. rewrite Hpdf in Hrun.
    simpl in Hrun. unfold try_except in Hrun.
    rewrite bind_run in Hrun. unfold uuid4_str at 1 in Hrun.
    fold document_id in Hrun. fold w0 in Hrun. fold file_path in Hrun.
    rewrite bind_run in Hrun. split.
    { intros e w1 H1. by rewrite H1 in Hrun. }
    intros w1 H1. rewrite H1, bind_run in Hrun. split.
    { intros e w2 H2. by rewrite H2 in Hrun. }
    intros w2 H2. rewrite H2, bind_run in Hrun. split.
    { intros e w3 H3. by rewrite H3 in Hrun. }
    intros w3 H3. rewrite H3, bind_run, send_document_event_run in Hrun.
    intros w4. split.
    { intros u Hu. by rewrite Hu in Hrun. }
    intros send_error Hs. rewrite Hs in Hrun.
    unfold upload_document_fallback, lift_exn in Hrun.
    rewrite bind_run in Hrun. fold w4 in Hrun. split.
    { intros e He. by rewrite He in Hrun. }
    intros processor Hp. rewrite Hp, bind_run in Hrun. split.
    { intros e w5 H5. by rewrite H5 in Hrun. }
    intros chunks w5 H5. rewrite H5, bind_run in Hrun. split.
    { intros e w6 H6. by rewrite H6 in Hrun. }
    intros ids w6 H6. rewrite H6, bind_run in Hrun. split.
    { intros e w7 H7. by rewrite H7 in Hrun. }
    intros w7 H7. by rewrite H7 in Hrun.
Qed.


#[local] Instance read_only_pre : PreOrder read_only.
Proof.
  split; [intros w; by split_and!|].
  intros w1 w2 w3 (F1 & C1 & U1) (F2 & C2 & U2). split_and!; congruence.
Qed.

Lemma search_step_read_only (self : VectorStore) query top_k :
  step_inv read_only (search self query top_k).
Proof.
  intros w r w'. rewrite search_run.
  destruct (embeddings_create w _ _) as [e|[|v vs]]; simpl;
    [by intros [= _ <-]|by intros [= _ <-]|].
  destruct (collections w !! collection_name self);
    [destruct (qdrant_fault _ _)|]; by intros [= _ <-].
Qed.

Lemma generate_answer_step_read_only (self : RAGService) query docs :
  step_inv read_only (generate_answer self query docs).
Proof.
  intros w r w' H.
  pose proof (generate_answer_world self query docs w) as Hw.
  rewrite H in Hw. simpl in Hw. by subst w'.
Qed.

(** X19: answering a question only reads: whatever the outcome,
    [query_documents] leaves the files, the index and the identifier
    counter as they were; and the only exceptions it raises are
    [HTTPException]s. *)
Theorem query_documents_read_only (request : QueryRequest) (w : World) :
  read_only w (query_documents request w).2
  ∧ ∀ e, (query_documents request w).1 = inl e → is_HTTPException e = true.
Proof.
  split.
  - destruct (query_documents request w) as [r w'] eqn:Hrun. simpl.
    revert Hrun. apply (step_inv_try read_only).
    + apply step_inv_bind; [apply _|apply search_step_read_only|].
      intros docs. apply step_inv_bind; [apply _| |].
      { destruct docs; [apply step_inv_raise|apply step_inv_ret]; apply _. }
      intros _. apply step_inv_bind; [apply _|apply generate_answer_step_read_only|].
      intros result. apply step_inv_bind; [apply _|apply step_inv_lift, _|].
      intros sources. apply step_inv_ret, _.
    + intros e. destruct (is_HTTPException e); apply step_inv_raise, _.
  - intros e. unfold query_documents, try_except.
    match goal with
    | |- context [match ?run with _ => _ end] => destruct run as [[cause|a] w1]
    end; simpl; [|discriminate].
    destruct (is_HTTPException cause) eqn:Hc; intros [= <-]; done.
Qed.

Lemma format_sources_inr docs sources :
  format_sources docs = inr sources →
  Forall2 (λ doc source,
             doc_content doc = VStr (dc_content source)
             ∧ dc_metadata source = doc_metadata doc
             ∧ dc_score source = Some (doc_score doc))
    docs sources.
Proof.
  revert sources. induction docs as [|doc docs IH]; intros sources; simpl.
  - intros [= <-]. constructor.
  - unfold DocumentChunk_init.
    destruct (doc_content doc) as [|s| |] eqn:Hc; try discriminate.
    destruct (format_sources docs) as [e|cs]; [discriminate|].
    intros [= <-]. constructor; [done|by apply IH].
Qed.

Lemma generate_answer_inr (self : RAGService) query docs w result w' :
  generate_answer self query docs w = (inr result, w') →
  sources result = docs
  ∧ ∃ rest,
      chat_completions_create w (model self) system_message
        (_create_prompt query (_build_context docs))
      = inr (answer result :: rest).
Proof.
  unfold generate_answer, time_now. rewrite bind_run. simpl.
  rewrite bind_run, extern_run.
  destruct (chat_completions_create _ _ _ _) as [e|[|a l]]; try discriminate.
  simpl. intros [= <- _]. split; [done|by exists l].
Qed.

(** X20: a response of [query_documents] echoes the question, its answer
    is the first choice of the chat model for the prompt built from the
    matches, and its sources are the matches of the search, one for one and
    in the same order, each with the match's content, metadata and score;
    there is at least one. *)
Theorem query_documents_response (request : QueryRequest) (w : World)
    (response : QueryResponse) :
  (query_documents request w).1 = inr response →
  ∃ doc docs w1 rest,
    search vector_store (query request) (top_k request) w = (inr (doc :: docs), w1)
    ∧ qr_query response = query request
    ∧ Forall2 (λ doc source,
                 doc_content doc = VStr (dc_content source)
                 ∧ dc_metadata source = doc_metadata doc
                 ∧ dc_score source = Some (doc_score doc))
        (doc :: docs) (qr_sources response)
    ∧ chat_completions_create w1 (chat_model settings) system_message
        (_create_prompt (query request) (_build_context (doc :: docs)))
      = inr (qr_answer response :: rest).
Proof.
  destruct (query_documents request w) as [r w'] eqn:Hrun. simpl.
  intros ->. revert Hrun. unfold query_documents, try_except.
  match goal with
  | |- context [match ?run with _ => _ end] =>
      destruct run as [[cause|a] w1] eqn:Hbody
  end.
  { by destruct (is_HTTPException cause). }
  intros [= -> ->].
  apply bind_inr in Hbody as (found & w2 & Hsearch & Hbody).
  apply bind_inr in Hbody as ([] & w3 & Hmatch & Hbody).
  destruct found as [|doc docs]; [discriminate|]. injection Hmatch as <-.
  apply bind_inr in Hbody as (result & w4 & Hanswer & Hbody).
  apply bind_inr in Hbody as (sources & w5 & Hsources & Hbody).
  injection Hbody as <- _. injection Hsources as Hsources _.
  apply generate_answer_inr in Hanswer as (Hsrc & rest & Hchat).
  rewrite Hsrc in Hsources.
  exists doc, docs, w2, rest. split_and!; try done.
  by apply format_sources_inr.
Qed.


(** ** The file-type check of the upload *)

Lemma string_length_app (s t : string) :
  String.length (s +:+ t) = (String.length s + String.length t)%nat.
Proof.
  induction s as [|a s IH]; [done|].
  change (S (String.length (s +:+ t)) = S (String.length s + String.length t)).
  by rewrite IH.
Qed.

Lemma substring_all (s : string) : String.substring 0 (String.length s) s = s.
Proof. induction s as [|a s IH]; [done|]. simpl. by rewrite IH. Qed.

Lemma substring_app_r (p suffix : string) :
  String.substring (String.length p) (String.length suffix) (p +:+ suffix) = suffix.
Proof.
  induction p as [|a p IH]; [apply substring_all|].
  change (String.substring (String.length p) (String.length suffix) (p +:+ suffix)
          = suffix).
  exact IH.
Qed.

Lemma substring_split (s : string) (k : nat) :
  (k ≤ String.length s)%nat →
  s = String.substring 0 k s +:+ String.substring k (String.length s - k) s.
Proof.
  revert k. induction s as [|a s IH]; intros k Hk.
  - simpl in Hk. by replace k with 0%nat by lia.
  - destruct k as [|k].
    + change (String a s = String.substring 0 (String.length (String a s)) (String a s)).
      by rewrite substring_all.
    + change (String a s
              = String a (String.substring 0 k s
                          +:+ String.substring k (String.length s - k) s)).
      f_equal. apply IH. simpl in Hk. lia.
Qed.

Lemma endswith_iff (s suffix : string) :
  endswith s suffix = true ↔ ∃ stem, s = stem +:+ suffix.
Proof.
  unfold endswith. split.
  - case_decide as Hle; [|discriminate].
    rewrite bool_decide_eq_true. intros Hsub.
    exists (String.substring 0 (String.length s - String.length suffix) s).
    etransitivity;
      [apply (substring_split s (String.length s - String.length suffix)); lia|].
    f_equal.
    replace (String.length s - (String.length s - String.length suffix))%nat
      with (String.length suffix) by lia.
    exact Hsub.
  - intros [stem ->]. rewrite string_length_app.
    rewrite decide_True by lia.
    replace (String.length stem + String.length suffix - String.length suffix)%nat
      with (String.length stem) by lia.
    by rewrite substring_app_r, bool_decide_eq_true_2.
Qed.

(** X21: the upload is refused with status 400 exactly when the file
    name is not some stem followed by [.pdf] (in lower case: the
    comparison is exact). *)
Theorem upload_document_type_check (file : UploadFile) (w : World) :
  (upload_document file w).1 = inl (HTTPException 400 "Only PDF files are supported")
  ↔ ¬ ∃ stem, filename file = stem +:+ ".pdf".
Proof.
  rewrite <- endswith_iff. unfold upload_document.
  destruct (endswith (filename file) ".pdf"); simpl.
  - split; [|done]. unfold try_except.
    match goal with
    | |- context [match ?run with _ => _ end] => destruct run as [[cause|a] w1]
    end; simpl; discriminate.
  - split; [by intros _|done].
Qed.


(** ** Edge cases of the ingestion *)

Lemma process_document_run (self : DocumentProcessor)
    (file_path document_id filename : string) (w : World) :
  process_document self file_path document_id filename w
  = (match (extract_text_from_pdf self file_path w).1 with
     | inl e => inl e
     | inr text =>
         inr (chunk_text self text
                (Some (<["file_path" := VStr file_path]>
                         (<["filename" := VStr filename]>
                            (<["document_id" := VStr document_id]> ∅)))))
     end,
     log (EvOpen file_path "rb") w).
Proof.
  unfold process_document. rewrite bind_run, extract_text_from_pdf_run.
  simpl. destruct (files w !! file_path) as [file|]; [|reflexivity].
  destruct (os_fault w _); [reflexivity|].
  by destruct (PdfReader file).
Qed.

Lemma add_documents_nil (self : VectorStore) (w : World) :
  add_documents self [] w = (inr [], w).
Proof. reflexivity. Qed.

Lemma blank_pages_text (pages : list string) (k : nat) :
  Forall (λ page_text, page_text = "") pages →
  String.concat "" (imap (λ i, page_block (k + i)) pages) = "".
Proof.
  intros H. revert k. induction H as [|page pages -> _ IH]; intros k; [done|].
  rewrite imap_cons, string_concat_cons.
  assert (imap ((λ i, page_block (k + i)) ∘ S) pages
          = imap (λ i, page_block (S k + i)) pages) as ->.
  { apply imap_ext. intros i y _. simpl. f_equal. lia. }
  by rewrite IH.
Qed.

(** X6: a document without any text is ingested successfully with zero
    chunks.  When the file can be read, no page has text and the splitter
    has no piece for the empty text, the run reports success with
    [chunks_processed = 0] and no identifiers, removes the file, and asks
    neither the embedding model nor the index for a write: the only calls
    are the opening of the file, the check (and, if needed, creation) of
    the collection and the removal. *)
Theorem process_document_function_blank (event_data : EventData) (w : World)
    (processor : DocumentProcessor) (file : string) (pages : list string) :
  DocumentProcessor_init (chunk_size settings) (chunk_overlap settings)
    = inr processor →
  files w !! ed_file_path event_data = Some file →
  PdfReader file = inr pages →
  Forall (λ page_text, page_text = "") pages →
  split_text (text_splitter processor) "" = [] →
  (∀ w0 ev, qdrant_fault w0 ev = None) →
  (∀ w0 ev, os_fault w0 ev = None) →
  (process_document_function event_data w).1
  = inr (ProcessOk (ed_document_id event_data) 0 [])
  ∧ files (process_document_function event_data w).2
    = delete (ed_file_path event_data) (files w)
  ∧ new_events w (process_document_function event_data w).2
    = ([EvOpen (ed_file_path event_data) "rb"; EvGetCollections]
       ++ (if decide (is_Some (collections w !! qdrant_collection_name settings))
           then []
           else [EvCreateCollection (qdrant_collection_name settings)])
       ++ [EvRemove (ed_file_path event_data)])%list.
Proof.
  intros Hdp Hfile Hpdf Hblank Hsplit Hq Hos.
  destruct (process_document_function event_data w) as [r w'] eqn:Hrun.
  revert Hrun.
  unfold process_document_function, try_except, step_run, lift_exn.
  rewrite bind_run, Hdp, bind_run, process_document_run.
  rewrite extract_text_from_pdf_run, Hfile, Hos, Hpdf. simpl.
  assert (String.concat "" (imap page_block pages) = "") as ->
    by apply (blank_pages_text pages 0 Hblank).
  assert (∀ md, chunk_text processor "" md = []) as ->.
  { intros md. unfold chunk_text. by rewrite Hsplit. }
  rewrite bind_run, VectorStore_init_run, Hq. simpl.
  destruct (collections w !! qdrant_collection_name settings) as [pts|] eqn:Hc.
  - rewrite bind_run, add_documents_nil, bind_run, remove_if_exists_run.
    simpl. rewrite Hfile, Hos.
    intros [= <- <-]. simpl. split_and!; try reflexivity.
    try rewrite decide_True by eauto.
    apply new_events_app. simpl. by rewrite <- !app_assoc.
  - rewrite Hq, bind_run, add_documents_nil, bind_run, remove_if_exists_run.
    simpl. rewrite Hfile, Hos.
    intros [= <- <-]. simpl. split_and!; try reflexivity.
    try rewrite decide_False by (by intros [? ?]).
    apply new_events_app. simpl. by rewrite <- !app_assoc.
Qed.

(** X22: the cleanup removes the file if it is there, and is a silent
    no-op if it is not: a missing file is neither an error nor a call to
    [os.remove]; an existing file is removed and every other file is kept;
    and when the removal fails the files are as before. *)
Theorem remove_if_exists_effect (file_path : string) (w : World) :
  (files w !! file_path = None → remove_if_exists file_path w = (inr tt, w))
  ∧ (is_Some (files w !! file_path) →
     match (remove_if_exists file_path w).1 with
     | inr _ =>
         files (remove_if_exists file_path w).2 !! file_path = None
         ∧ ∀ other, other ≠ file_path →
             files (remove_if_exists file_path w).2 !! other = files w !! other
     | inl _ => files (remove_if_exists file_path w).2 = files w
     end).
Proof.
  rewrite remove_if_exists_run. split.
  - by intros ->.
  - intros [file ->]. destruct (os_fault w _); simpl; [done|].
    split; [apply lookup_delete_eq|]. intros other Hne.
    by apply lookup_delete_ne.
Qed.

End Program.

(** * The program on examples *)

(** A text of ten characters, cut every four, gives three chunks; the
    second one is number 1 of 3. *)
Lemma chunk_text_metadata_witness :
  (1 < length (chunk_text nat sample_split_text (mkDocumentProcessor nat 4 1 4)
                 "0123456789" None))%nat
  ∧ ∃ c,
      chunk_text nat sample_split_text (mkDocumentProcessor nat 4 1 4)
        "0123456789" None !! 1%nat = Some c
      ∧ metadata c
        = <["total_chunks" :=
              VInt (Z.of_nat (length (chunk_text nat sample_split_text
                                        (mkDocumentProcessor nat 4 1 4)
                                        "0123456789" None)))]>
            (<["chunk_index" := VInt (Z.of_nat 1)]> (default ∅ None))
      ∧ metadata c !! "chunk_index" = Some (VInt (Z.of_nat 1))
      ∧ metadata c !! "total_chunks"
        = Some (VInt (Z.of_nat (length (chunk_text nat sample_split_text
                                          (mkDocumentProcessor nat 4 1 4)
                                          "0123456789" None)))).
Proof.
  assert (1 < length (chunk_text nat sample_split_text (mkDocumentProcessor nat 4 1 4)
                        "0123456789" None))%nat as H by (vm_compute; lia).
  split; [exact H|].
  exact (chunk_text_metadata nat sample_split_text (mkDocumentProcessor nat 4 1 4)
           "0123456789" None 1%nat H).
Defined.

Example chunk_text_sample :
  content <$> chunk_text nat sample_split_text (mkDocumentProcessor nat 4 1 4)
                "0123456789" None
  = ["0123"; "4567"; "89"].
Proof. vm_compute. reflexivity. Qed.

(** With a splitter that refuses only an overlap above the chunk size,
    an overlap equal to the chunk size is accepted; with a splitter that
    refuses nothing, a chunk size of 0 is accepted; and a refusal by the
    splitter surfaces as the splitter's [ValueError]. *)
Lemma DocumentProcessor_init_accepts_overlap_equal_to_size :
  (100 >= 100)%Z
  ∧ DocumentProcessor_init nat strict_splitter_new 100 100
    = inr (mkDocumentProcessor nat 100 100 100%nat)
  ∧ (0 < 1)%Z
  ∧ DocumentProcessor_init nat sample_splitter_new 0 0
    = inr (mkDocumentProcessor nat 0 0 0%nat)
  ∧ DocumentProcessor_init nat strict_splitter_new 5 10
    = inl (OtherException "ValueError" "Got a larger chunk overlap than chunk size").
Proof. repeat split; try lia; reflexivity. Qed.

(** An embedding model that answers with three numbers gets its answer
    returned as it is, although the store is configured for 1536. *)
Lemma generate_embedding_returns_short_vector :
  (generate_embedding sample_embeddings sample_store "hello" empty_world).1
  = inr [1%Q; 2%Q; 3%Q]
  ∧ Z.of_nat (length [1%Q; 2%Q; 3%Q]) ≠ embedding_dimension sample_store.
Proof. split; [reflexivity|]. simpl. lia. Qed.

Example endswith_sample :
  endswith "report.pdf" ".pdf" = true
  ∧ endswith "notes.txt" ".pdf" = false
  ∧ endswith "REPORT.PDF" ".pdf" = false
  ∧ endswith "pdf" ".pdf" = false.
Proof. repeat split; vm_compute; reflexivity. Qed.




(** A search over the stocked collection: the first match comes from the
    first stored point and has lost its ["content"] key. *)
Lemma search_metadata_without_content_witness :
  search sample_embeddings no_fault sample_similarity sample_store "lorem" 2
    stocked_world
  = (inr [mkDocument (VStr "lorem") {["document_id" := VStr "d1"]} 1%Q;
          mkDocument (VStr "lorem") {["document_id" := VStr "d2"]} 1%Q],
     log (EvSearch "documents" [1%Q; 2%Q; 3%Q] 2)
       (log (EvEmbed "text-embedding-3-small" "lorem") stocked_world))
  ∧ mkDocument (VStr "lorem") {["document_id" := VStr "d1"]} 1%Q
    ∈ [mkDocument (VStr "lorem") {["document_id" := VStr "d1"]} 1%Q;
       mkDocument (VStr "lorem") {["document_id" := VStr "d2"]} 1%Q]
  ∧ ∃ pts p,
      collections stocked_world !! collection_name sample_store = Some pts
      ∧ p ∈ pts
      ∧ ({["document_id" := VStr "d1"]} : dict) = delete "content" (payload p)
      ∧ ({["document_id" := VStr "d1"]} : dict) !! "content" = None
      ∧ VStr "lorem" = default (VStr "") (payload p !! "content").
Proof.
  assert (search sample_embeddings no_fault sample_similarity sample_store "lorem" 2
            stocked_world
          = (inr [mkDocument (VStr "lorem") {["document_id" := VStr "d1"]} 1%Q;
                  mkDocument (VStr "lorem") {["document_id" := VStr "d2"]} 1%Q],
             log (EvSearch "documents" [1%Q; 2%Q; 3%Q] 2)
               (log (EvEmbed "text-embedding-3-small" "lorem") stocked_world)))
    as Hs by (vm_compute; reflexivity).
  assert (mkDocument (VStr "lorem") {["document_id" := VStr "d1"]} 1%Q
          ∈ [mkDocument (VStr "lorem") {["document_id" := VStr "d1"]} 1%Q;
             mkDocument (VStr "lorem") {["document_id" := VStr "d2"]} 1%Q])
    as Hd by apply list_elem_of_here.
  split; [exact Hs|]. split; [exact Hd|].
  exact (search_metadata_without_content sample_embeddings no_fault
           sample_similarity sample_store "lorem" 2 stocked_world _ _ _ Hs Hd).
Defined.

(** C8: deletion does not delete.  On the stocked collection, which holds
    two chunks of document [d1] and one of [d2],
    [delete_by_document_id "d1"] is refused by the client with [ValueError]
    before any request is made: the world is as it was, the three points
    are all still in the collection, and a search afterwards still returns
    the two chunks of [d1]. *)
Theorem delete_by_document_id_keeps_points :
  let run := delete_by_document_id no_fault sample_store "d1" stocked_world in
  run = (inl (OtherException "ValueError"
                "Unsupported points selector type: <class 'dict'>"),
         stocked_world)
  ∧ collections run.2 !! collection_name sample_store
    = Some [sample_point "0" "d1"; sample_point "1" "d2"; sample_point "2" "d1"]
  ∧ new_events stocked_world run.2 = []
  ∧ (search sample_embeddings no_fault sample_similarity sample_store "lorem" 3
       run.2).1
    = inr [mkDocument (VStr "lorem") {["document_id" := VStr "d1"]} 1%Q;
           mkDocument (VStr "lorem") {["document_id" := VStr "d2"]} 1%Q;
           mkDocument (VStr "lorem") {["document_id" := VStr "d1"]} 1%Q].
Proof.
  intros run. unfold run. rewrite delete_by_document_id_run. simpl.
  split; [reflexivity|]. split; [vm_compute; reflexivity|].
  split; [reflexivity|]. vm_compute. reflexivity.
Qed.

(** Two chunks stored into the stocked collection get the identifiers
    ["3"] and ["4"]. *)
Lemma add_documents_identifiers_witness :
  Inj (=) (=) sample_uuid4
  ∧ store_ids_issued sample_uuid4 sample_store stocked_world
  ∧ (add_documents sample_embeddings no_fault sample_uuid4 sample_store
       [mkChunk "alpha" ∅; mkChunk "beta" ∅] stocked_world).1
    = inr ["3"; "4"]
  ∧ length ["3"; "4"] = length [mkChunk "alpha" ∅; mkChunk "beta" ∅]
  ∧ NoDup ["3"; "4"].
Proof.
  assert (Inj (=) (=) sample_uuid4) as Hinj by apply pretty_nat_inj.
  assert (store_ids_issued sample_uuid4 sample_store stocked_world) as Hissued.
  { assert (collections stocked_world !! collection_name sample_store
            = Some [sample_point "0" "d1"; sample_point "1" "d2";
                    sample_point "2" "d1"]) as Hstock by (vm_compute; reflexivity).
    intros pts p Hc. rewrite Hstock in Hc. injection Hc as <-.
    rewrite !elem_of_cons, elem_of_nil.
    intros [->|[->|[->|[]]]];
      [exists 0%nat|exists 1%nat|exists 2%nat];
      (split; [unfold stocked_world; simpl; lia|reflexivity]). }
  assert ((add_documents sample_embeddings no_fault sample_uuid4 sample_store
             [mkChunk "alpha" ∅; mkChunk "beta" ∅] stocked_world).1
          = inr ["3"; "4"]) as Hrun by (vm_compute; reflexivity).
  split; [exact Hinj|]. split; [exact Hissued|]. split; [exact Hrun|].
  destruct (add_documents_identifiers sample_embeddings no_fault sample_uuid4
              sample_store [mkChunk "alpha" ∅; mkChunk "beta" ∅] stocked_world
              Hinj Hissued) as [_ Hprops].
  destruct (Hprops _ Hrun) as (Hlen & Hnodup & _).
  split; [exact Hlen|exact Hnodup].
Defined.


(** A question to an empty collection: 404, and only the embedding and
    the search were called. *)
Example query_documents_empty_index :
  query_documents sample_embeddings sample_chat no_fault sample_similarity
    sample_time sample_float_str sample_settings
    (mkQueryRequest "What is the deadline?" 3) sample_world
  = (inl (HTTPException 404 no_documents_detail),
     log (EvSearch "documents" [1%Q; 2%Q; 3%Q] 3)
       (log (EvEmbed "text-embedding-3-small" "What is the deadline?") sample_world)).
Proof. vm_compute. reflexivity. Qed.

(** The same question to the stocked collection: an answer with three
    sources, and the chat model was called last. *)
Example query_documents_stocked_index :
  let out :=
    query_documents sample_embeddings sample_chat no_fault sample_similarity
      sample_time sample_float_str sample_settings
      (mkQueryRequest "What is the deadline?" 3) stocked_world in
  match out.1 with
  | inr response =>
      qr_answer response = "The deadline is Friday."
      ∧ length (qr_sources response) = 3%nat
  | inl _ => False
  end
  ∧ (λ ev, match ev with EvChat _ _ => true | _ => false end) <$> trace out.2
    = [false; false; true].
Proof. vm_compute. split_and!; reflexivity. Qed.

(** The sample file is ingested: two chunks are stored and the file is
    gone. *)
Example process_document_function_sample :
  let out :=
    process_document_function nat sample_splitter_new sample_split_text
      sample_PdfReader sample_embeddings no_fault no_fault sample_uuid4
      sample_settings sample_event sample_world in
  out.1 = inr (ProcessOk "d1" 2 ["0"; "1"])
  ∧ files out.2 !! "uploads/d1_report.pdf" = None
  ∧ length <$> collections out.2 !! "documents" = Some 2%nat
  ∧ last (trace out.2) = Some (EvRemove "uploads/d1_report.pdf").
Proof. vm_compute. split_and!; reflexivity. Qed.

(** When the embedding model cannot be reached the run fails and the file
    stays. *)
Example process_document_function_failure :
  let out :=
    process_document_function nat sample_splitter_new sample_split_text
      sample_PdfReader failing_embeddings no_fault no_fault sample_uuid4
      sample_settings sample_event sample_world in
  out.1 = inr (ProcessFailed "d1" "Connection error.")
  ∧ files out.2 !! "uploads/d1_report.pdf" = Some "0123456789"
  ∧ collections out.2 !! "documents" = Some [].
Proof. vm_compute. split_and!; reflexivity. Qed.

(** An upload without Inngest is processed in the request. *)
Example upload_document_synchronous :
  let out :=
    upload_document nat sample_splitter_new sample_split_text sample_PdfReader
      sample_embeddings no_fault sample_inngest_send no_fault sample_uuid4
      sample_settings (mkUploadFile "a.pdf" "application/pdf" "hello world")
      sample_world in
  out.1 = inr (mkUploadResponse "0" "a.pdf" "completed"
                 "Document processed successfully (synchronous mode)")
  ∧ files out.2 !! "uploads/0_a.pdf" = None
  ∧ length <$> collections out.2 !! "documents" = Some 2%nat.
Proof. vm_compute. split_and!; reflexivity. Qed.


(** * Further examples *)

(** Three pages, the second without text: the third keeps its number. *)
Example extract_text_from_pdf_sample :
  (extract_text_from_pdf nat three_page_PdfReader no_fault
     (mkDocumentProcessor nat 16 2 16) "uploads/d1_report.pdf" sample_world).1
  = inr (nl +:+ "--- Page 1 ---" +:+ nl +:+ "alpha"
         +:+ nl +:+ "--- Page 3 ---" +:+ nl +:+ "gamma").
Proof. vm_compute. reflexivity. Qed.

(** Constructing the store creates the missing collection, once. *)
Example VectorStore_init_sample :
  let first := VectorStore_init no_fault "documents" "text-embedding-3-small"
                 bare_world in
  let second := VectorStore_init no_fault "documents" "text-embedding-3-small"
                  first.2 in
  first.1 = inr sample_store
  ∧ collections first.2 !! "documents" = Some []
  ∧ trace first.2 = [EvGetCollections; EvCreateCollection "documents"]
  ∧ trace second.2
    = [EvGetCollections; EvCreateCollection "documents"; EvGetCollections].
Proof. vm_compute. split_and!; reflexivity. Qed.

(** The second chunk of the sample file carries the tags of its document. *)
Lemma process_document_tags_witness :
  let tags : dict :=
    <["file_path" := VStr "uploads/d1_report.pdf"]>
      (<["filename" := VStr "report.pdf"]> (<["document_id" := VStr "d1"]> ∅)) in
  let chunks :=
    [mkChunk (nl +:+ "--- Page 1 ---" +:+ nl)
       (<["total_chunks" := VInt 2]> (<["chunk_index" := VInt 0]> tags));
     mkChunk "0123456789"
       (<["total_chunks" := VInt 2]> (<["chunk_index" := VInt 1]> tags))] in
  (process_document nat sample_split_text sample_PdfReader no_fault
     (mkDocumentProcessor nat 16 2 16) "uploads/d1_report.pdf" "d1" "report.pdf"
     sample_world).1 = inr chunks
  ∧ chunks !! 1%nat
    = Some (mkChunk "0123456789"
              (<["total_chunks" := VInt 2]> (<["chunk_index" := VInt 1]> tags)))
  ∧ (<["total_chunks" := VInt 2]> (<["chunk_index" := VInt 1]> tags))
      !! "document_id" = Some (VStr "d1")
  ∧ (<["total_chunks" := VInt 2]> (<["chunk_index" := VInt 1]> tags))
      !! "content" = None.
Proof.
  intros tags chunks.
  assert ((process_document nat sample_split_text sample_PdfReader no_fault
             (mkDocumentProcessor nat 16 2 16) "uploads/d1_report.pdf" "d1"
             "report.pdf" sample_world).1 = inr chunks)
    as Hrun by (vm_compute; reflexivity).
  assert (chunks !! 1%nat
          = Some (mkChunk "0123456789"
                    (<["total_chunks" := VInt 2]>
                       (<["chunk_index" := VInt 1]> tags))))
    as Hc by reflexivity.
  split; [exact Hrun|]. split; [exact Hc|].
  destruct (process_document_tags nat sample_split_text sample_PdfReader no_fault
              _ _ _ _ _ _ _ _ Hrun Hc) as (_ & Hid & _ & _ & Hcontent).
  split; [exact Hid|exact Hcontent].
Defined.

(** With an unreachable embedding model nothing reaches the index. *)
Lemma add_documents_failure_witness :
  (add_documents failing_embeddings no_fault sample_uuid4 sample_store
     [mkChunk "alpha" ∅; mkChunk "beta" ∅] stocked_world).1
  = inl (OtherException "APIConnectionError" "Connection error.")
  ∧ files (add_documents failing_embeddings no_fault sample_uuid4 sample_store
             [mkChunk "alpha" ∅; mkChunk "beta" ∅] stocked_world).2
    = files stocked_world.
Proof.
  assert ((add_documents failing_embeddings no_fault sample_uuid4 sample_store
             [mkChunk "alpha" ∅; mkChunk "beta" ∅] stocked_world).1
          = inl (OtherException "APIConnectionError" "Connection error."))
    as Hrun by (vm_compute; reflexivity).
  split; [exact Hrun|].
  exact (proj1 (add_documents_failure failing_embeddings no_fault sample_uuid4
                  sample_store _ stocked_world _ Hrun)).
Defined.

(** Two chunks go to the index in one request. *)
Lemma add_documents_round_trips_witness :
  (add_documents sample_embeddings no_fault sample_uuid4 sample_store
     [mkChunk "alpha" ∅; mkChunk "beta" ∅] stocked_world).1
  = inr ["3"; "4"]
  ∧ ∃ evs batches,
      new_events stocked_world
        (add_documents sample_embeddings no_fault sample_uuid4 sample_store
           [mkChunk "alpha" ∅; mkChunk "beta" ∅] stocked_world).2
      = (evs ++ (EvUpsert (collection_name sample_store) <$> batches))%list
      ∧ Forall embed_or_uuid evs
      ∧ length batches
        = ((length [mkChunk "alpha" ∅; mkChunk "beta" ∅] + 99) / 100)%nat.
Proof.
  assert ((add_documents sample_embeddings no_fault sample_uuid4 sample_store
             [mkChunk "alpha" ∅; mkChunk "beta" ∅] stocked_world).1
          = inr ["3"; "4"]) as Hrun by (vm_compute; reflexivity).
  split; [exact Hrun|].
  exact (add_documents_round_trips sample_embeddings no_fault sample_uuid4
           sample_store _ stocked_world _ Hrun).
Defined.


(** After storing two chunks, a search finds the first of them again. *)
Lemma add_documents_then_search_witness :
  let stored :=
    add_documents sample_embeddings no_fault sample_uuid4 sample_store
      [mkChunk "alpha" ∅; mkChunk "beta" ∅] stocked_world in
  let docs :=
    [mkDocument (VStr "lorem") {["document_id" := VStr "d1"]} 1%Q;
     mkDocument (VStr "lorem") {["document_id" := VStr "d2"]} 1%Q;
     mkDocument (VStr "lorem") {["document_id" := VStr "d1"]} 1%Q;
     mkDocument (VStr "alpha") ∅ 1%Q;
     mkDocument (VStr "beta") ∅ 1%Q] in
  stored.1 = inr ["3"; "4"]
  ∧ (search sample_embeddings no_fault sample_similarity sample_store "alpha" 5
       stored.2).1 = inr docs
  ∧ mkDocument (VStr "alpha") ∅ 1%Q ∈ docs
  ∧ ((∃ pts p,
         collections stocked_world !! collection_name sample_store = Some pts
         ∧ p ∈ pts
         ∧ doc_metadata (mkDocument (VStr "alpha") ∅ 1%Q)
           = delete "content" (payload p)
         ∧ doc_content (mkDocument (VStr "alpha") ∅ 1%Q)
           = default (VStr "") (payload p !! "content"))
     ∨ (∃ c,
          c ∈ [mkChunk "alpha" ∅; mkChunk "beta" ∅]
          ∧ doc_metadata (mkDocument (VStr "alpha") ∅ 1%Q)
            = delete "content" (metadata c)
          ∧ doc_content (mkDocument (VStr "alpha") ∅ 1%Q)
            = default (VStr (content c)) (metadata c !! "content"))).
Proof.
  intros stored docs.
  assert (stored.1 = inr ["3"; "4"]) as Hrun by (vm_compute; reflexivity).
  assert ((search sample_embeddings no_fault sample_similarity sample_store "alpha" 5
             stored.2).1 = inr docs) as Hsearch by (vm_compute; reflexivity).
  assert (mkDocument (VStr "alpha") ∅ 1%Q ∈ docs) as Hdoc
    by (do 3 apply list_elem_of_further; apply list_elem_of_here).
  split; [exact Hrun|]. split; [exact Hsearch|]. split; [exact Hdoc|].
  exact (add_documents_then_search sample_embeddings no_fault sample_similarity
           sample_uuid4 sample_store _ stocked_world _ "alpha" 5 _ _
           Hrun Hsearch Hdoc).
Defined.

Lemma stocked_world_ids_issued :
  store_ids_issued sample_uuid4 sample_store stocked_world.
Proof.
  assert (collections stocked_world !! collection_name sample_store
          = Some [sample_point "0" "d1"; sample_point "1" "d2";
                  sample_point "2" "d1"]) as Hstock by (vm_compute; reflexivity).
  intros pts p Hc. rewrite Hstock in Hc. injection Hc as <-.
  rewrite !elem_of_cons, elem_of_nil.
  intros [->|[->|[->|[]]]];
    [exists 0%nat|exists 1%nat|exists 2%nat];
    (split; [unfold stocked_world; simpl; lia|reflexivity]).
Qed.

(** Two chunks of document [d9] stored into the stocked collection come
    after the three points that were there. *)
Lemma add_documents_appends_witness :
  let chunks :=
    [mkChunk "alpha" {["document_id" := VStr "d9"]};
     mkChunk "beta" {["document_id" := VStr "d9"]}] in
  let pts :=
    [sample_point "0" "d1"; sample_point "1" "d2"; sample_point "2" "d1"] in
  let stored :=
    add_documents sample_embeddings no_fault sample_uuid4 sample_store chunks
      stocked_world in
  Inj (=) (=) sample_uuid4
  ∧ store_ids_issued sample_uuid4 sample_store stocked_world
  ∧ collections stocked_world !! collection_name sample_store = Some pts
  ∧ stored.1 = inr ["3"; "4"]
  ∧ ∃ points,
      point_id <$> points = ["3"; "4"]
      ∧ Forall2 (λ chunk p, payload p = chunk_payload chunk) chunks points
      ∧ collections stored.2
        = <[collection_name sample_store := (pts ++ points)%list]>
            (collections stocked_world).
Proof.
  intros chunks pts stored.
  assert (Inj (=) (=) sample_uuid4) as Hinj by apply pretty_nat_inj.
  pose proof stocked_world_ids_issued as Hissued.
  assert (collections stocked_world !! collection_name sample_store = Some pts)
    as Hc by (vm_compute; reflexivity).
  assert (stored.1 = inr ["3"; "4"]) as Hrun by (vm_compute; reflexivity).
  split; [exact Hinj|]. split; [exact Hissued|]. split; [exact Hc|].
  split; [exact Hrun|].
  exact (add_documents_appends sample_embeddings no_fault sample_uuid4
           sample_store chunks stocked_world pts _ Hinj Hissued Hc Hrun).
Defined.

(** With a working event bus an upload is only saved and announced. *)
Lemma upload_document_enqueues_witness :
  endswith (filename (mkUploadFile "a.pdf" "application/pdf" "hello world")) ".pdf"
  = true
  ∧ (∀ w0 ev, no_fault w0 ev = None)
  ∧ (∀ w0 data, working_inngest_send w0 data = inr tt)
  ∧ (upload_document nat sample_splitter_new sample_split_text sample_PdfReader
       sample_embeddings no_fault working_inngest_send no_fault sample_uuid4
       sample_settings (mkUploadFile "a.pdf" "application/pdf" "hello world")
       sample_world).1
    = inr (mkUploadResponse (sample_uuid4 (uuid_count sample_world)) "a.pdf"
             "processing" "Document uploaded successfully and is being processed").
Proof.
  assert (endswith (filename (mkUploadFile "a.pdf" "application/pdf" "hello world"))
            ".pdf" = true) as Hpdf by (vm_compute; reflexivity).
  assert (∀ w0 ev, no_fault w0 ev = None) as Hos by reflexivity.
  assert (∀ w0 data, working_inngest_send w0 data = inr tt) as Hsend by reflexivity.
  split; [exact Hpdf|]. split; [exact Hos|]. split; [exact Hsend|].
  exact (proj1 (upload_document_enqueues nat sample_splitter_new sample_split_text
                  sample_PdfReader sample_embeddings no_fault working_inngest_send
                  no_fault sample_uuid4 sample_settings _ sample_world
                  Hpdf Hos Hsend)).
Defined.

(** Without an event key and without the collection, the upload goes
    through the synchronous stages up to the storing, whose [Not Found]
    is what the response reports. *)
Lemma upload_document_errors_witness :
  let file := mkUploadFile "a.pdf" "application/pdf" "hello world" in
  let run :=
    upload_document nat sample_splitter_new sample_split_text sample_PdfReader
      sample_embeddings no_fault sample_inngest_send no_fault sample_uuid4
      sample_settings file empty_world in
  endswith (filename file) ".pdf" = true
  ∧ run.1 = inl (HTTPException 500 "Error processing document: Not Found").
Proof.
  intros file run.
  assert (endswith (filename file) ".pdf" = true) as Hpdf
    by (vm_compute; reflexivity).
  pose proof (upload_document_errors nat sample_splitter_new sample_split_text
                sample_PdfReader sample_embeddings no_fault sample_inngest_send
                no_fault sample_uuid4 sample_settings file empty_world) as H.
  cbv zeta in H. destruct H as (_ & _ & H). specialize (H Hpdf).
  destruct H as [_ H]. specialize (H _ eq_refl).
  destruct H as [_ H]. specialize (H _ eq_refl).
  destruct H as [_ H]. specialize (H _ eq_refl).
  destruct H as [_ H]. specialize (H _ eq_refl).
  destruct H as [_ H]. specialize (H _ eq_refl).
  destruct H as [_ H]. specialize (H _ _ eq_refl).
  destruct H as [H _]. specialize (H _ _ eq_refl).
  split; [exact Hpdf|]. unfold run. rewrite H. reflexivity.
Defined.

(** The answer to a question over the stocked collection has the three
    stored chunks as sources. *)
Lemma query_documents_response_witness :
  let response :=
    mkQueryResponse "What is the deadline?" "The deadline is Friday."
      [mkDocumentChunk "lorem" {["document_id" := VStr "d1"]} (Some 1%Q);
       mkDocumentChunk "lorem" {["document_id" := VStr "d2"]} (Some 1%Q);
       mkDocumentChunk "lorem" {["document_id" := VStr "d1"]} (Some 1%Q)]
      1%Q in
  (query_documents sample_embeddings sample_chat no_fault sample_similarity
     sample_time sample_float_str sample_settings
     (mkQueryRequest "What is the deadline?" 3) stocked_world).1 = inr response
  ∧ ∃ doc docs,
      Forall2 (λ doc source,
                 doc_content doc = VStr (dc_content source)
                 ∧ dc_metadata source = doc_metadata doc
                 ∧ dc_score source = Some (doc_score doc))
        (doc :: docs) (qr_sources response).
Proof.
  intros response.
  assert ((query_documents sample_embeddings sample_chat no_fault
             sample_similarity sample_time sample_float_str sample_settings
             (mkQueryRequest "What is the deadline?" 3) stocked_world).1
          = inr response) as Hrun by (vm_compute; reflexivity).
  split; [exact Hrun|].
  destruct (query_documents_response sample_embeddings sample_chat no_fault
              sample_similarity sample_time sample_float_str sample_settings
              _ stocked_world _ Hrun)
    as (doc & docs & _ & _ & _ & _ & Hsources & _).
  by exists doc, docs.
Defined.


(** A scanned document without text is ingested with zero chunks. *)
Lemma process_document_function_blank_witness :
  DocumentProcessor_init nat sample_splitter_new (chunk_size sample_settings)
    (chunk_overlap sample_settings)
  = inr (mkDocumentProcessor nat 16 2 16%nat)
  ∧ files sample_world !! ed_file_path sample_event = Some "0123456789"
  ∧ blank_PdfReader "0123456789" = inr [""; ""]
  ∧ Forall (λ page_text, page_text = "") [""; ""]
  ∧ sample_split_text (text_splitter nat (mkDocumentProcessor nat 16 2 16%nat)) ""
    = []
  ∧ (∀ w0 ev, no_fault w0 ev = None)
  ∧ (process_document_function nat sample_splitter_new sample_split_text
       blank_PdfReader sample_embeddings no_fault no_fault sample_uuid4
       sample_settings sample_event sample_world).1
    = inr (ProcessOk (ed_document_id sample_event) 0 []).
Proof.
  assert (DocumentProcessor_init nat sample_splitter_new (chunk_size sample_settings)
            (chunk_overlap sample_settings)
          = inr (mkDocumentProcessor nat 16 2 16%nat)) as Hdp by reflexivity.
  assert (files sample_world !! ed_file_path sample_event = Some "0123456789")
    as Hfile by (vm_compute; reflexivity).
  assert (blank_PdfReader "0123456789" = inr [""; ""]) as Hpdf by reflexivity.
  assert (Forall (λ page_text, page_text = "") [""; ""]) as Hblank
    by (repeat constructor).
  assert (sample_split_text
            (text_splitter nat (mkDocumentProcessor nat 16 2 16%nat)) "" = [])
    as Hsplit by reflexivity.
  assert (∀ w0 ev, no_fault w0 ev = None) as Hno by reflexivity.
  split; [exact Hdp|]. split; [exact Hfile|]. split; [exact Hpdf|].
  split; [exact Hblank|]. split; [exact Hsplit|]. split; [exact Hno|].
  exact (proj1 (process_document_function_blank nat sample_splitter_new
                  sample_split_text blank_PdfReader sample_embeddings no_fault
                  no_fault sample_uuid4 sample_settings sample_event sample_world
                  _ _ _ Hdp Hfile Hpdf Hblank Hsplit Hno Hno)).
Defined.
